(** * Device-registration form (src/App.tsx): model and verification

    The component [App] keeps four pieces of React state ([fullName],
    [currentIp], [status], [errorMessage]) and reacts to five kinds of
    events: the settlement of the identity lookup started on mount, a
    change of the name input, a form submission, the settlement of the
    webhook POST, and a click on "Register another device".

    The model below follows the source one handler at a time.  An [async]
    handler is split at its [await]: the part before it runs when the
    event is delivered, the part after it runs when the awaited promise
    settles.  Each part runs to completion on the single-threaded event
    loop and React re-renders before the next event is delivered, so a
    handler always reads the state of the latest render.

    [step] gives what a handler does to a mounted component, guarded by
    the status tests that show and enable the controls.  [render] is the
    whole render, banner text included; it can throw, and React then
    unmounts the component: [deliver] is [step] followed by that render. *)

From Stdlib Require Import List NArith ZArith Bool String Ascii Lia.
From Stdlib Require DecimalString.
Import ListNotations.

(** ** JavaScript strings and values *)

(** A JavaScript string is a sequence of UTF-16 code units. *)
Definition jsstring : Type := list N.

(** An ASCII literal of the source, as code units. *)
Definition lit (s : string) : jsstring :=
  List.map N_of_ascii (list_ascii_of_string s).

Fixpoint jsstring_eqb (a b : jsstring) : bool :=
  match a, b with
  | [], [] => true
  | x :: a', y :: b' => N.eqb x y && jsstring_eqb a' b'
  | _, _ => false
  end.

(** WhiteSpace and LineTerminator code points of ECMAScript: the ones
    [String.prototype.trim] strips.  All of them lie in the basic
    multilingual plane, so each is a single code unit. *)
Definition isWhiteSpace (c : N) : bool :=
  (N.eqb c 0x0009 || N.eqb c 0x000A || N.eqb c 0x000B || N.eqb c 0x000C
   || N.eqb c 0x000D || N.eqb c 0x0020 || N.eqb c 0x00A0 || N.eqb c 0x1680
   || (N.leb 0x2000 c && N.leb c 0x200A)
   || N.eqb c 0x2028 || N.eqb c 0x2029 || N.eqb c 0x202F || N.eqb c 0x205F
   || N.eqb c 0x3000 || N.eqb c 0xFEFF)%N.

Fixpoint trimStart (s : jsstring) : jsstring :=
  match s with
  | [] => []
  | c :: s' => if isWhiteSpace c then trimStart s' else s
  end.

Definition trimEnd (s : jsstring) : jsstring := rev (trimStart (rev s)).

(** [s.trim()] *)
Definition trim (s : jsstring) : jsstring := trimEnd (trimStart s).

(** Truthiness of a string: [!s] holds exactly for the empty string. *)
Definition falsy_string (s : jsstring) : bool :=
  match s with [] => true | _ :: _ => false end.

(** What [response.json()] can produce.  The payload of a number is never
    inspected by this program. *)
#[warnings="-register-all"]
Inductive json : Type :=
| JNull
| JBool (b : bool)
| JNum (n : Z)
| JStr (s : jsstring)
| JArr (items : list json)
| JObj (members : list (jsstring * json)).

(** A run-time value: [undefined] or a JSON value ([null] is [VJson JNull]). *)
Inductive value : Type :=
| VUndefined
| VJson (j : json).

Definition null : value := VJson JNull.
Definition VStr (s : jsstring) : value := VJson (JStr s).

(** [v === s] for a string [s]: strict equality never coerces. *)
Definition strict_eq_string (v : value) (s : jsstring) : bool :=
  match v with
  | VJson (JStr t) => jsstring_eqb t s
  | _ => false
  end.

(** Own member of a parsed object; for a repeated key [JSON.parse] keeps
    the last occurrence. *)
Fixpoint lookup_member (k : jsstring) (ms : list (jsstring * json)) : option json :=
  match ms with
  | [] => None
  | (k', v) :: rest =>
      match lookup_member k rest with
      | Some w => Some w
      | None => if jsstring_eqb k' k then Some v else None
      end
  end.

(** Exceptions the handlers can meet. *)
Inductive exn : Type :=
| FetchFailed                 (* fetch() rejected: transport-level failure *)
| ErrorMsg (msg : jsstring)   (* new Error(msg) *)
| JsonSyntaxError             (* response.json() rejected *)
| PropertyOfNull              (* TypeError: reading a property of null *)
| NotPrimitive.               (* TypeError: cannot convert object to primitive value *)

Inductive result (A : Type) : Type :=
| Ok (a : A)
| Raise (e : exn).
Arguments Ok {A} a.
Arguments Raise {A} e.

(** [data.ip]: a [TypeError] on [null], the member of an object, and
    [undefined] on every other value (numbers, booleans, strings and
    arrays have no property of that name). *)
Definition member_ip (data : json) : result value :=
  match data with
  | JNull => Raise PropertyOfNull
  | JObj ms =>
      Ok (match lookup_member (lit "ip") ms with
          | Some v => VJson v
          | None => VUndefined
          end)
  | _ => Ok VUndefined
  end.

(** ** Component state *)

Inductive AppStatus : Type :=
| idle | loading_ip | ready | submitting | success | error.

Definition AppStatus_eqb (a b : AppStatus) : bool :=
  match a, b with
  | idle, idle | loading_ip, loading_ip | ready, ready
  | submitting, submitting | success, success | error, error => true
  | _, _ => false
  end.

Record State : Type := mkState {
  fullName : jsstring;
  currentIp : value;
  status : AppStatus;
  errorMessage : option jsstring
}.

(** The initial values passed to [useState]. *)
Definition useState_initial : State :=
  {| fullName := []; currentIp := null; status := loading_ip; errorMessage := None |}.

(** The object handed to [JSON.stringify] in [handleRegister]. *)
Record Payload : Type := mkPayload {
  name : jsstring;
  userAgent : jsstring;
  ip : value
}.

Inductive Method : Type := GET | POST.
Inductive Mode : Type := mode_default | no_cors.

(** An outgoing [fetch] call. *)
Record Request : Type := mkRequest {
  url : jsstring;
  method : Method;
  mode : Mode;
  contentType : option jsstring;
  body : option Payload
}.

(** What the platform hands back for a [fetch].  [parsed] is the outcome of
    [response.json()]: [None] when the body is not parseable. *)
Record Response : Type := mkResponse {
  ok : bool;
  parsed : option json
}.

Inductive Settled : Type :=
| Rejected
| Resolved (resp : Response).

(** Everything a handler can touch: the React state, the requests sent so
    far (oldest first) and the developer console. *)
Record World : Type := mkWorld {
  state : State;
  requests : list Request;
  console : list (jsstring * exn)
}.

(** ** A small monad for handlers: state and exceptions

    A [catch] does not roll the state back, as in JavaScript. *)
Definition Act (A : Type) : Type := World -> result A * World.

Definition ret {A} (a : A) : Act A := fun w => (Ok a, w).

Definition bind {A B} (m : Act A) (k : A -> Act B) : Act B :=
  fun w =>
    match m w with
    | (Ok a, w') => k a w'
    | (Raise e, w') => (Raise e, w')
    end.

Definition throw {A} (e : exn) : Act A := fun w => (Raise e, w).

Definition try_catch {A} (m : Act A) (handler : exn -> Act A) : Act A :=
  fun w =>
    match m w with
    | (Ok a, w') => (Ok a, w')
    | (Raise e, w') => handler e w'
    end.

Declare Scope act_scope.
Delimit Scope act_scope with act.
Notation "x <- m ;; k" := (bind m (fun x => k))
  (at level 61, m at next level, right associativity) : act_scope.
Notation "m ;; k" := (bind m (fun _ => k))
  (at level 61, right associativity) : act_scope.
Open Scope act_scope.

Definition modify (f : State -> State) : Act unit :=
  fun w => (Ok tt, {| state := f (state w); requests := requests w; console := console w |}).

Definition setFullName (v : jsstring) : Act unit :=
  modify (fun s => {| fullName := v; currentIp := currentIp s;
                      status := status s; errorMessage := errorMessage s |}).
Definition setCurrentIp (v : value) : Act unit :=
  modify (fun s => {| fullName := fullName s; currentIp := v;
                      status := status s; errorMessage := errorMessage s |}).
Definition setStatus (v : AppStatus) : Act unit :=
  modify (fun s => {| fullName := fullName s; currentIp := currentIp s;
                      status := v; errorMessage := errorMessage s |}).
Definition setErrorMessage (v : option jsstring) : Act unit :=
  modify (fun s => {| fullName := fullName s; currentIp := currentIp s;
                      status := status s; errorMessage := v |}).

(** [fetch(...)]: the request leaves; its settlement arrives as an event. *)
Definition fetch (r : Request) : Act unit :=
  fun w => (Ok tt, {| state := state w; requests := requests w ++ [r]; console := console w |}).

Definition console_error (label : jsstring) (e : exn) : Act unit :=
  fun w => (Ok tt, {| state := state w; requests := requests w;
                      console := console w ++ [(label, e)] |}).

(** Resuming at an [await] with the settlement of the awaited promise. *)
Definition await (o : Settled) : Act Response :=
  match o with
  | Rejected => throw FetchFailed
  | Resolved resp => ret resp
  end.

(** [await response.json()] *)
Definition await_json (resp : Response) : Act json :=
  match parsed resp with
  | Some data => ret data
  | None => throw JsonSyntaxError
  end.

Definition lift {A} (r : result A) : Act A := fun w => (r, w).

(** ** The handlers of [App] *)

Section App.

(** The constants imported from [./constants] and the browser's
    [navigator.userAgent]. *)
Variable OFFICE_IP : jsstring.
Variable WEBHOOK_URL : jsstring.
Variable IP_API : jsstring.
Variable navigator_userAgent : jsstring.

(** [ToBoolean] and [ToString] of a number, as the platform has them; the
    payload of [JNum] stands for the number. *)
Variable Number_ToBoolean : Z -> bool.
Variable Number_ToString : Z -> jsstring.

Definition msg_lookup_failed : jsstring :=
  lit "Could not verify your network connection.".
Definition msg_name_required : jsstring :=
  lit "Please enter your full name.".
(** 'Vui lòng dùng Wifi OAC': the two accented letters are U+00F2 and U+00F9. *)
Definition msg_wrong_network : jsstring :=
  lit "Vui l" ++ [0xF2%N] ++ lit "ng d" ++ [0xF9%N] ++ lit "ng Wifi OAC".
Definition msg_submission_failed : jsstring :=
  lit "An error occurred during registration. Please try again.".

Definition lookup_request : Request :=
  {| url := IP_API; method := GET; mode := mode_default;
     contentType := None; body := None |}.

Definition webhook_request (p : Payload) : Request :=
  {| url := WEBHOOK_URL; method := POST; mode := no_cors;
     contentType := Some (lit "application/json"); body := Some p |}.

(** [fetchIp], up to [await fetch(IP_API)]. *)
Definition fetchIp : Act unit :=
  setStatus loading_ip ;;
  fetch lookup_request.

(** [fetchIp], from the settlement of the lookup to the end.  Nothing can
    happen between [await fetch] and [await response.json()] (the form is
    disabled while loading), so both settle in one step. *)
Definition fetchIp_resume (o : Settled) : Act unit :=
  try_catch
    (response <- await o ;;
     (if negb (ok response) then throw (ErrorMsg (lit "Failed to fetch IP")) else ret tt) ;;
     data <- await_json response ;;
     ip_field <- lift (member_ip data) ;;
     setCurrentIp ip_field ;;
     setStatus ready)
    (fun err =>
       console_error (lit "IP Fetch Error:") err ;;
       setErrorMessage (Some msg_lookup_failed) ;;
       setStatus error).

(** [handleRegister], up to [await fetch(WEBHOOK_URL, ...)].  [r] is the
    render whose values the closure captured.  The result tells whether the
    handler is now suspended on the POST. *)
Definition handleRegister (r : State) : Act bool :=
  if falsy_string (trim (fullName r)) then
    setErrorMessage (Some msg_name_required) ;;
    ret false
  else if negb (strict_eq_string (currentIp r) OFFICE_IP) then
    setErrorMessage (Some msg_wrong_network) ;;
    ret false
  else
    setErrorMessage None ;;
    setStatus submitting ;;
    let payload := {| name := fullName r;
                      userAgent := navigator_userAgent;
                      ip := currentIp r |} in
    fetch (webhook_request payload) ;;
    ret true.

(** [handleRegister], from the settlement of the POST to the end: the
    response is not looked at. *)
Definition handleRegister_resume (o : Settled) : Act unit :=
  try_catch
    (response <- await o ;;
     setStatus success)
    (fun err =>
       console_error (lit "Submission Error:") err ;;
       setErrorMessage (Some msg_submission_failed) ;;
       setStatus ready).

(** The [onClick] of "Register another device". *)
Definition registerAnother : Act unit :=
  setStatus ready ;;
  setFullName [].

(** The [onChange] of the name input. *)
Definition onChangeName (v : jsstring) : Act unit := setFullName v.

(** ** What is on screen *)

(** [ToString] of a parsed value, as a template literal applies it.  An
    array is joined with commas, [null] elements giving the empty string.
    An object goes through [toString] then [valueOf]: an own member named
    [toString] is never callable and the inherited [valueOf] returns the
    object itself, so the conversion throws; without such a member the
    inherited [toString] answers '[object Object]'. *)
Fixpoint ToString (v : json) : result jsstring :=
  match v with
  | JNull => Ok (lit "null")
  | JBool true => Ok (lit "true")
  | JBool false => Ok (lit "false")
  | JNum n => Ok (Number_ToString n)
  | JStr s => Ok s
  | JArr items =>
      (fix join (l : list json) : result jsstring :=
         match l with
         | [] => Ok []
         | x :: rest =>
             match (match x with JNull => Ok [] | _ => ToString x end) with
             | Raise e => Raise e
             | Ok s =>
                 match rest with
                 | [] => Ok s
                 | _ :: _ =>
                     match join rest with
                     | Raise e => Raise e
                     | Ok t => Ok (s ++ lit "," ++ t)
                     end
                 end
             end
         end) items
  | JObj ms =>
      match lookup_member (lit "toString") ms with
      | Some _ => Raise NotPrimitive
      | None => Ok (lit "[object Object]")
      end
  end.

Definition ToString_value (v : value) : result jsstring :=
  match v with
  | VUndefined => Ok (lit "undefined")
  | VJson j => ToString j
  end.

(** Truthiness, as [||] tests it. *)
Definition ToBoolean (v : value) : bool :=
  match v with
  | VUndefined => false
  | VJson JNull => false
  | VJson (JBool b) => b
  | VJson (JNum n) => Number_ToBoolean n
  | VJson (JStr s) => negb (falsy_string s)
  | VJson (JArr _) => true
  | VJson (JObj _) => true
  end.

(** The text of the status banner:
    [status === 'loading_ip' ? 'Detecting network...'
                             : `Current IP: ${currentIp || 'Unknown'}`]. *)
Definition banner_text (s : State) : result jsstring :=
  if AppStatus_eqb (status s) loading_ip then Ok (lit "Detecting network...")
  else
    match ToString_value (if ToBoolean (currentIp s) then currentIp s
                          else VStr (lit "Unknown")) with
    | Ok t => Ok (lit "Current IP: " ++ t)
    | Raise e => Raise e
    end.

(** What [App] renders: the success screen with its single button, or the
    form; or the render throws. *)
Record FormView : Type := mkFormView {
  onOfficeNetwork : bool;          (* currentIp === OFFICE_IP: banner colour and icon *)
  detecting : bool;                (* banner reads 'Detecting network...' *)
  bannerText : jsstring;
  inputValue : jsstring;
  inputDisabled : bool;
  shownError : option jsstring;    (* errorMessage && (...) *)
  submitDisabled : bool;
  submitLabel : jsstring
}.

Inductive View : Type :=
| SuccessScreen
| Form (f : FormView)
| Thrown (e : exn).

Definition render (s : State) : View :=
  if AppStatus_eqb (status s) success then SuccessScreen
  else
    match banner_text s with
    | Raise e => Thrown e
    | Ok text =>
        Form
          {| onOfficeNetwork := strict_eq_string (currentIp s) OFFICE_IP;
             detecting := AppStatus_eqb (status s) loading_ip;
             bannerText := text;
             inputValue := fullName s;
             inputDisabled := AppStatus_eqb (status s) submitting
                              || AppStatus_eqb (status s) loading_ip;
             shownError := match errorMessage s with
                           | Some m => if falsy_string m then None else Some m
                           | None => None
                           end;
             submitDisabled := AppStatus_eqb (status s) submitting
                               || AppStatus_eqb (status s) loading_ip;
             submitLabel := if AppStatus_eqb (status s) submitting
                            then lit "Processing..."
                            else lit "Register My Device" |}
    end.

(** The tests of the JSX that show and enable the controls; they look at
    [status] only: [status === 'success' ? ... : <form>] and the two
    [disabled] attributes. *)
Inductive Controls : Type :=
| SuccessControls
| FormControls (inputOff submitOff : bool).

Definition controls (s : State) : Controls :=
  if AppStatus_eqb (status s) success then SuccessControls
  else FormControls
         (AppStatus_eqb (status s) submitting || AppStatus_eqb (status s) loading_ip)
         (AppStatus_eqb (status s) submitting || AppStatus_eqb (status s) loading_ip).

(** ** The session as a state machine *)

(** A configuration: the world plus the two promises a handler can be
    suspended on. *)
Record Config : Type := mkConfig {
  world : World;
  lookupInFlight : bool;
  postInFlight : bool
}.

Inductive Event : Type :=
| LookupSettled (o : Settled)     (* the GET to IP_API settles *)
| ChangeName (v : jsstring)       (* the user edits the input *)
| Submit                          (* the form is submitted *)
| PostSettled (o : Settled)       (* the POST to WEBHOOK_URL settles *)
| RegisterAnother.                (* click on the success screen *)

(** After the first render, [useEffect] has called [fetchIp]. *)
Definition initial : Config :=
  {| world := snd (fetchIp {| state := useState_initial; requests := []; console := [] |});
     lookupInFlight := true;
     postInFlight := false |}.

(** One event on a mounted component.  [None]: the event cannot be
    delivered in this configuration (no such promise is pending, or the
    status tests of the JSX hide or disable the control).  Whether the
    render that follows throws is the business of [deliver]. *)
Definition step (c : Config) (e : Event) : option Config :=
  let s := state (world c) in
  match e with
  | LookupSettled o =>
      if lookupInFlight c then
        Some {| world := snd (fetchIp_resume o (world c));
                lookupInFlight := false;
                postInFlight := postInFlight c |}
      else None
  | ChangeName v =>
      match controls s with
      | FormControls inputOff _ =>
          if inputOff then None
          else Some {| world := snd (onChangeName v (world c));
                       lookupInFlight := lookupInFlight c;
                       postInFlight := postInFlight c |}
      | SuccessControls => None
      end
  | Submit =>
      match controls s with
      | FormControls _ submitOff =>
          if submitOff then None
          else
            let (r, w') := handleRegister s (world c) in
            Some {| world := w';
                    lookupInFlight := lookupInFlight c;
                    postInFlight :=
                      match r with
                      | Ok suspended => suspended || postInFlight c
                      | Raise _ => postInFlight c
                      end |}
      | SuccessControls => None
      end
  | PostSettled o =>
      if postInFlight c then
        Some {| world := snd (handleRegister_resume o (world c));
                lookupInFlight := lookupInFlight c;
                postInFlight := false |}
      else None
  | RegisterAnother =>
      match controls s with
      | SuccessControls =>
          Some {| world := snd (registerAnother (world c));
                  lookupInFlight := lookupInFlight c;
                  postInFlight := postInFlight c |}
      | FormControls _ _ => None
      end
  end.

(** A sequence of events, delivered in order. *)
Fixpoint run (c : Config) (evs : list Event) : option Config :=
  match evs with
  | [] => Some c
  | e :: rest =>
      match step c e with
      | Some c' => run c' rest
      | None => None
      end
  end.

Definition reachable (c : Config) : Prop :=
  exists evs, run initial evs = Some c.

(** The component as React holds it: mounted in some configuration, or
    unmounted after a render that threw (there is no error boundary). *)
Inductive Session : Type :=
| Mounted (c : Config)
| Unmounted.

(** One event followed by the render of the new state.  Nothing can be
    delivered to an unmounted component. *)
Definition deliver (s : Session) (e : Event) : option Session :=
  match s with
  | Unmounted => None
  | Mounted c =>
      match step c e with
      | None => None
      | Some c' =>
          Some (match render (state (world c')) with
                | Thrown _ => Unmounted
                | _ => Mounted c'
                end)
      end
  end.

Fixpoint session_run (s : Session) (evs : list Event) : option Session :=
  match evs with
  | [] => Some s
  | e :: rest =>
      match deliver s e with
      | Some s' => session_run s' rest
      | None => None
      end
  end.

(** Shorthands for the fields of the session state. *)
Definition st (c : Config) : State := state (world c).
Definition sent (c : Config) : list Request := requests (world c).

(** The POSTs among a list of requests. *)
Definition posts (rs : list Request) : list Request :=
  filter (fun r => match method r with POST => true | GET => false end) rs.

(** The settlements of the lookup on which the [try] block of [fetchIp]
    throws: a rejected [fetch], a response that is not [ok], a body that
    does not parse, and a body that parses to [null]. *)
Definition lookup_fails (o : Settled) : bool :=
  match o with
  | Rejected => true
  | Resolved resp =>
      negb (ok resp) ||
      match parsed resp with
      | None => true
      | Some JNull => true
      | Some _ => false
      end
  end.

(** The value [data.ip] the lookup delivers, when the [try] block does not
    throw. *)
Definition lookup_value (o : Settled) : option value :=
  match o with
  | Rejected => None
  | Resolved resp =>
      if ok resp then
        match parsed resp with
        | Some data =>
            match member_ip data with Ok v => Some v | Raise _ => None end
        | None => None
        end
      else None
  end.

(** The state after the lookup has settled with [o]. *)
Definition with_settled_lookup (s : State) (o : Settled) : State :=
  match lookup_value o with
  | Some v =>
      {| fullName := fullName s; currentIp := v; status := ready;
         errorMessage := errorMessage s |}
  | None =>
      {| fullName := fullName s; currentIp := currentIp s; status := error;
         errorMessage := Some msg_lookup_failed |}
  end.

(** The payload [handleRegister] builds in configuration [c]. *)
Definition payload_of (c : Config) : Payload :=
  {| name := fullName (st c);
     userAgent := navigator_userAgent;
     ip := currentIp (st c) |}.

(** The edges of the status machine, each with the event that takes it. *)
Inductive edge : AppStatus -> Event -> AppStatus -> Prop :=
| edge_lookup_ok (o : Settled) : edge loading_ip (LookupSettled o) ready
| edge_lookup_failed (o : Settled) : edge loading_ip (LookupSettled o) error
| edge_submit : edge ready Submit submitting
| edge_post_dispatched (resp : Response) :
    edge submitting (PostSettled (Resolved resp)) success
| edge_post_failed : edge submitting (PostSettled Rejected) ready
| edge_register_another : edge success RegisterAnother ready.

(** What holds of every configuration a session can reach: a pending
    lookup goes with [loading_ip], a pending POST with [submitting], the
    address is still [null] in [loading_ip] and [error], and [idle] is
    never entered. *)
Definition Inv (c : Config) : Prop :=
  (lookupInFlight c = true <-> status (st c) = loading_ip)
  /\ (postInFlight c = true <-> status (st c) = submitting)
  /\ (status (st c) = loading_ip \/ status (st c) = error -> currentIp (st c) = null)
  /\ status (st c) <> idle.

(** What holds for the rest of a session whose lookup failed. *)
Definition Stuck (c : Config) : Prop :=
  status (st c) = error
  /\ currentIp (st c) = null
  /\ lookupInFlight c = false
  /\ postInFlight c = false
  /\ posts (sent c) = [].

(** A configuration together with the events that led to it: until the
    lookup has settled no settlement is in the history; afterwards there
    is exactly one, and it decides the address and whether the status is
    [error]. *)
Definition Traced (hist : list Event) (c : Config) : Prop :=
  Inv c
  /\ if lookupInFlight c then forall o, ~ In (LookupSettled o) hist
     else exists o,
         In (LookupSettled o) hist
         /\ (forall o', In (LookupSettled o') hist -> o' = o)
         /\ match lookup_value o with
            | Some v => currentIp (st c) = v /\ status (st c) <> error
            | None => status (st c) = error
            end.

(** The GETs among a list of requests. *)
Definition gets (rs : list Request) : list Request :=
  filter (fun r => match method r with GET => true | POST => false end) rs.

(** A request as [handleRegister] sends it: a POST to the webhook, with
    [mode: 'no-cors'] and a JSON content type among the arguments of
    [fetch], whose body is a payload with the office address, the
    browser's user-agent string and a name whose trimmed form is not
    empty. *)
Definition compliant (r : Request) : Prop :=
  url r = WEBHOOK_URL
  /\ method r = POST
  /\ mode r = no_cors
  /\ contentType r = Some (lit "application/json")
  /\ exists n,
       trim n <> []
       /\ body r = Some {| name := n; userAgent := navigator_userAgent;
                           ip := VStr OFFICE_IP |}.

(** The statuses in which the form is rendered with its controls enabled. *)
Definition controls_enabled (s : AppStatus) : Prop :=
  s <> success /\ s <> submitting /\ s <> loading_ip.

(** The state after a handler has replaced one field. *)
Definition state_with_name (s : State) (v : jsstring) : State :=
  {| fullName := v; currentIp := currentIp s; status := status s;
     errorMessage := errorMessage s |}.
Definition state_with_status (s : State) (v : AppStatus) : State :=
  {| fullName := fullName s; currentIp := currentIp s; status := v;
     errorMessage := errorMessage s |}.
Definition state_with_error (s : State) (v : option jsstring) : State :=
  {| fullName := fullName s; currentIp := currentIp s; status := status s;
     errorMessage := v |}.

(** How many POSTs have settled in a sequence of events. *)
Definition settled_posts (evs : list Event) : nat :=
  List.length
    (filter (fun e => match e with PostSettled _ => true | _ => false end) evs).

(** The events on which a [catch] block runs. *)
Definition is_failure (e : Event) : bool :=
  match e with
  | LookupSettled o => lookup_fails o
  | PostSettled Rejected => true
  | _ => false
  end.

Definition failures (evs : list Event) : nat :=
  List.length (filter is_failure evs).

Definition in_flight (b : bool) : nat := if b then 1 else 0.

(** A session that is not on the office network: nothing is pending,
    nothing has been posted, and the status is [ready] or [error]. *)
Definition OffNetwork (c : Config) : Prop :=
  lookupInFlight c = false
  /\ postInFlight c = false
  /\ currentIp (st c) <> VStr OFFICE_IP
  /\ posts (sent c) = []
  /\ (status (st c) = ready \/ status (st c) = error).

(** While a submission is under way or has succeeded, the last request
    is the POST built from the name and address still held in the state. *)
Definition Dispatched (c : Config) : Prop :=
  status (st c) = submitting \/ status (st c) = success ->
  currentIp (st c) = VStr OFFICE_IP
  /\ trim (fullName (st c)) <> []
  /\ exists rs, sent c = rs ++ [webhook_request (payload_of c)].

(** Which statuses go with an error message. *)
Definition Messages (c : Config) : Prop :=
  (status (st c) = loading_ip \/ status (st c) = submitting
   \/ status (st c) = success -> errorMessage (st c) = None)
  /\ (status (st c) = error ->
      exists m, errorMessage (st c) = Some m /\ m <> []).

(** The requests of a session: the lookup first, then only compliant
    POSTs. *)
Definition Traffic (c : Config) : Prop :=
  sent c = lookup_request :: posts (sent c)
  /\ Forall compliant (posts (sent c)).

(** ** Facts about strings and values *)

Lemma jsstring_eqb_eq (a b : jsstring) : jsstring_eqb a b = true <-> a = b.
Proof.
  revert b; induction a as [|x a IH]; intros [|y b]; simpl; split;
    try congruence; try reflexivity.
  - intros H. apply andb_true_iff in H as [Hx Hab].
    apply N.eqb_eq in Hx. apply IH in Hab. congruence.
  - intros H. injection H as -> ->.
    apply andb_true_iff. split; [apply N.eqb_refl | now apply IH].
Qed.

Lemma strict_eq_string_true (v : value) (s : jsstring) :
  strict_eq_string v s = true <-> v = VStr s.
Proof.
  unfold VStr. destruct v as [|[ | | |t| | ]]; simpl; split;
    try discriminate; try congruence.
  - intros H. apply jsstring_eqb_eq in H. now subst.
  - intros H. injection H as ->. now apply jsstring_eqb_eq.
Qed.

Lemma strict_eq_string_false (v : value) (s : jsstring) :
  strict_eq_string v s = false <-> v <> VStr s.
Proof.
  rewrite <- strict_eq_string_true.
  destruct (strict_eq_string v s); split; congruence.
Qed.

Lemma trimStart_nil_iff (s : jsstring) :
  trimStart s = [] <-> forallb isWhiteSpace s = true.
Proof.
  induction s as [|c s IH]; simpl.
  - tauto.
  - destruct (isWhiteSpace c); simpl; [exact IH | split; discriminate].
Qed.

Lemma trimStart_all_or_suffix (s : jsstring) :
  forallb isWhiteSpace s = true \/
  exists c t, trimStart s = c :: t /\ isWhiteSpace c = false.
Proof.
  induction s as [|c s IH]; simpl.
  - now left.
  - destruct (isWhiteSpace c) eqn:Hc; simpl; [exact IH | right; eauto].
Qed.

Lemma forallb_rev {A} (f : A -> bool) (l : list A) :
  forallb f (rev l) = forallb f l.
Proof.
  induction l as [|x l IH]; simpl; [reflexivity|].
  rewrite forallb_app, IH. simpl. rewrite andb_true_r. apply andb_comm.
Qed.

(** The trimmed form is empty exactly for the strings made of white space
    only (the empty string among them). *)
Lemma trim_nil_iff (s : jsstring) :
  trim s = [] <-> forallb isWhiteSpace s = true.
Proof.
  unfold trim, trimEnd. split.
  - intros H.
    assert (Hr : trimStart (rev (trimStart s)) = []).
    { destruct (trimStart (rev (trimStart s))) as [|x l]; [reflexivity|].
      simpl in H. apply app_eq_nil in H as [_ H]. discriminate. }
    apply trimStart_nil_iff in Hr. rewrite forallb_rev in Hr.
    destruct (trimStart_all_or_suffix s) as [Hall | (c & t & Heq & Hc)];
      [exact Hall|].
    rewrite Heq in Hr. simpl in Hr. rewrite Hc in Hr. discriminate.
  - intros H. apply trimStart_nil_iff in H. now rewrite H.
Qed.

Lemma falsy_string_false (s : jsstring) : falsy_string s = false <-> s <> [].
Proof. destruct s; simpl; split; congruence. Qed.

(** ** What each handler does *)

Lemma lookup_value_fails (o : Settled) :
  lookup_value o = None <-> lookup_fails o = true.
Proof.
  destruct o as [|[[|] [[]|]]]; simpl; split; congruence.
Qed.

Lemma fetchIp_resume_state (o : Settled) (w : World) :
  state (snd (fetchIp_resume o w)) = with_settled_lookup (state w) o
  /\ requests (snd (fetchIp_resume o w)) = requests w.
Proof.
  destruct w as [s rs cs].
  destruct o as [|[[|] [[]|]]]; split; reflexivity.
Qed.

Lemma handleRegister_blank (r : State) (w : World) :
  trim (fullName r) = [] ->
  handleRegister r w =
    (Ok false, snd (setErrorMessage (Some msg_name_required) w)).
Proof.
  intros H. unfold handleRegister. rewrite H. reflexivity.
Qed.

Lemma handleRegister_wrong_network (r : State) (w : World) :
  trim (fullName r) <> [] ->
  currentIp r <> VStr OFFICE_IP ->
  handleRegister r w =
    (Ok false, snd (setErrorMessage (Some msg_wrong_network) w)).
Proof.
  intros Hn Hip. unfold handleRegister.
  apply falsy_string_false in Hn. rewrite Hn.
  apply strict_eq_string_false in Hip. rewrite Hip. reflexivity.
Qed.

Lemma handleRegister_pass (r : State) (w : World) :
  trim (fullName r) <> [] ->
  currentIp r = VStr OFFICE_IP ->
  handleRegister r w =
    (Ok true,
     {| state := {| fullName := fullName (state w);
                    currentIp := currentIp (state w);
                    status := submitting;
                    errorMessage := None |};
        requests := requests w ++
          [webhook_request {| name := fullName r;
                              userAgent := navigator_userAgent;
                              ip := currentIp r |}];
        console := console w |}).
Proof.
  intros Hn Hip. unfold handleRegister.
  apply falsy_string_false in Hn. rewrite Hn.
  apply strict_eq_string_true in Hip. rewrite Hip. reflexivity.
Qed.

(** ** Submission *)

Lemma step_submit_enabled (c : Config) :
  status (st c) = ready \/ status (st c) = error ->
  step c Submit =
    let (r, w') := handleRegister (st c) (world c) in
    Some {| world := w';
            lookupInFlight := lookupInFlight c;
            postInFlight :=
              match r with
              | Ok suspended => suspended || postInFlight c
              | Raise _ => postInFlight c
              end |}.
Proof.
  unfold st. intros [H | H]; unfold step, controls; rewrite H; reflexivity.
Qed.

(** C2. For every name that is empty or made of white space only,
    submitting from [ready] leaves the status [ready], sets the
    validation message 'Please enter your full name.' and sends nothing
    to the webhook, whatever the detected address is. *)
Theorem submit_blank_name_rejected (c : Config) :
  status (st c) = ready ->
  forallb isWhiteSpace (fullName (st c)) = true ->
  exists c',
    step c Submit = Some c'
    /\ status (st c') = ready
    /\ errorMessage (st c') = Some msg_name_required
    /\ sent c' = sent c
    /\ postInFlight c' = postInFlight c
    /\ fullName (st c') = fullName (st c)
    /\ currentIp (st c') = currentIp (st c).
Proof.
  intros Hst Hws. apply trim_nil_iff in Hws.
  rewrite step_submit_enabled by now left.
  rewrite (handleRegister_blank _ _ Hws).
  eexists. split; [reflexivity|].
  destruct c as [[s rs cs] lf pf]. unfold st, sent in *. simpl in *.
  repeat split; assumption || reflexivity.
Qed.

(** C3. For every detected address other than the office address
    ([null] and [undefined] among them) and every name whose trimmed form
    is not empty, submitting from [ready] leaves the status [ready],
    sends nothing, and sets the message 'Vui lòng dùng Wifi OAC'. *)
Theorem submit_wrong_network_rejected (c : Config) :
  status (st c) = ready ->
  trim (fullName (st c)) <> [] ->
  currentIp (st c) <> VStr OFFICE_IP ->
  exists c',
    step c Submit = Some c'
    /\ status (st c') = ready
    /\ errorMessage (st c') = Some msg_wrong_network
    /\ sent c' = sent c
    /\ postInFlight c' = postInFlight c.
Proof.
  intros Hst Hn Hip.
  rewrite step_submit_enabled by now left.
  rewrite (handleRegister_wrong_network _ _ Hn Hip).
  eexists. split; [reflexivity|].
  destruct c as [[s rs cs] lf pf]. unfold st, sent in *. simpl in *.
  repeat split; assumption || reflexivity.
Qed.

Lemma step_submit_pass (c : Config) :
  status (st c) = ready ->
  trim (fullName (st c)) <> [] ->
  currentIp (st c) = VStr OFFICE_IP ->
  step c Submit =
    Some {| world :=
              {| state := {| fullName := fullName (st c);
                             currentIp := currentIp (st c);
                             status := submitting;
                             errorMessage := None |};
                 requests := sent c ++ [webhook_request (payload_of c)];
                 console := console (world c) |};
            lookupInFlight := lookupInFlight c;
            postInFlight := true |}.
Proof.
  intros Hst Hn Hip.
  rewrite step_submit_enabled by now left.
  rewrite (handleRegister_pass _ _ Hn Hip). reflexivity.
Qed.

Lemma posts_app (a b : list Request) : posts (a ++ b) = posts a ++ posts b.
Proof. apply filter_app. Qed.

(** C1 (amended). For every name whose trimmed form is not empty and a
    detected address equal to the office address, submitting from [ready]
    moves the status to [submitting] and at that moment sends exactly one
    request: a POST to the webhook, in [no-cors] mode with a JSON content
    type, whose payload carries the entered name, the browser's user-agent
    string and the detected address.  Whether that POST then settles or
    fails at transport level, nothing more is sent; when it settles
    without a transport failure the status becomes [success]. *)
Theorem submit_dispatches_and_succeeds (c : Config) (resp : Response) :
  status (st c) = ready ->
  trim (fullName (st c)) <> [] ->
  currentIp (st c) = VStr OFFICE_IP ->
  exists c1 c2 c3,
    step c Submit = Some c1
    /\ status (st c1) = submitting
    /\ sent c1 = sent c ++
         [{| url := WEBHOOK_URL; method := POST; mode := no_cors;
             contentType := Some (lit "application/json");
             body := Some {| name := fullName (st c);
                             userAgent := navigator_userAgent;
                             ip := currentIp (st c) |} |}]
    /\ posts (sent c1) = posts (sent c) ++
         [{| url := WEBHOOK_URL; method := POST; mode := no_cors;
             contentType := Some (lit "application/json");
             body := Some {| name := fullName (st c);
                             userAgent := navigator_userAgent;
                             ip := VStr OFFICE_IP |} |}]
    /\ step c1 (PostSettled (Resolved resp)) = Some c2
    /\ status (st c2) = success
    /\ errorMessage (st c2) = None
    /\ sent c2 = sent c1
    /\ step c1 (PostSettled Rejected) = Some c3
    /\ sent c3 = sent c1.
Proof.
  intros Hst Hn Hip.
  rewrite (step_submit_pass c Hst Hn Hip).
  do 3 eexists. split; [reflexivity|].
  split; [reflexivity|]. split; [reflexivity|]. split.
  - unfold sent at 1. simpl. rewrite posts_app. unfold payload_of.
    rewrite Hip. reflexivity.
  - split; [reflexivity|]. split; [reflexivity|]. split; [reflexivity|].
    split; [reflexivity|]. split; reflexivity.
Qed.

(** C4. In a submission that passed both checks, a POST that settles
    without a transport failure moves the status to [success], whatever
    the response is; a POST that fails at transport level moves it back to
    [ready], sets the submission-error message and keeps the entered
    name. *)
Theorem post_settlement_decides_outcome (c : Config) :
  status (st c) = ready ->
  trim (fullName (st c)) <> [] ->
  currentIp (st c) = VStr OFFICE_IP ->
  exists c1,
    step c Submit = Some c1
    /\ status (st c1) = submitting
    /\ postInFlight c1 = true
    /\ (forall resp, exists c2,
          step c1 (PostSettled (Resolved resp)) = Some c2
          /\ status (st c2) = success
          /\ postInFlight c2 = false)
    /\ (exists c3,
          step c1 (PostSettled Rejected) = Some c3
          /\ status (st c3) = ready
          /\ errorMessage (st c3) = Some msg_submission_failed
          /\ fullName (st c3) = fullName (st c)
          /\ currentIp (st c3) = currentIp (st c)
          /\ postInFlight c3 = false
          /\ sent c3 = sent c1).
Proof.
  intros Hst Hn Hip.
  rewrite (step_submit_pass c Hst Hn Hip).
  eexists. split; [reflexivity|].
  split; [reflexivity|]. split; [reflexivity|]. split.
  - intros resp. eexists. split; [reflexivity|]. split; reflexivity.
  - eexists. split; [reflexivity|]. repeat split.
Qed.

(** C9. "Register another device", clicked in [success], always yields
    [ready] with an empty name and the detected address unchanged. *)
Theorem register_another_resets (c : Config) :
  status (st c) = success ->
  exists c',
    step c RegisterAnother = Some c'
    /\ status (st c') = ready
    /\ fullName (st c') = []
    /\ currentIp (st c') = currentIp (st c)
    /\ errorMessage (st c') = errorMessage (st c)
    /\ sent c' = sent c.
Proof.
  unfold st, sent. intros Hst. unfold step, controls. rewrite Hst. simpl.
  eexists. split; [reflexivity|]. repeat split.
Qed.

(** C10. In a submission that passes both checks the request sent is a
    POST to the webhook whose body is a payload, and the [name] of that
    payload is the entered string as typed: the check looks at the trimmed
    form, the payload takes the string itself, so leading or trailing
    white space is sent along. *)
Theorem payload_name_is_verbatim (c : Config) :
  status (st c) = ready ->
  trim (fullName (st c)) <> [] ->
  currentIp (st c) = VStr OFFICE_IP ->
  exists c' r p,
    step c Submit = Some c'
    /\ sent c' = sent c ++ [r]
    /\ url r = WEBHOOK_URL
    /\ method r = POST
    /\ body r = Some p
    /\ name p = fullName (st c)
    /\ (trim (fullName (st c)) <> fullName (st c) ->
        name p <> trim (fullName (st c))).
Proof.
  intros Hst Hn Hip.
  rewrite (step_submit_pass c Hst Hn Hip).
  do 3 eexists. split; [reflexivity|]. split; [reflexivity|].
  split; [reflexivity|]. split; [reflexivity|]. split; [reflexivity|].
  split; [reflexivity|]. simpl. congruence.
Qed.

(** ** Reachable configurations *)

(** A flag tied by [H] to a status other than the current one is off. *)
Ltac flag_off b H :=
  assert (b = false)
    by (destruct b; [discriminate (proj1 H eq_refl) | reflexivity]);
  subst b.

Lemma Inv_initial : Inv initial.
Proof.
  unfold Inv, initial, st. simpl. repeat split; congruence || auto.
Qed.

Lemma strict_eq_string_null (s : jsstring) : strict_eq_string null s = false.
Proof. reflexivity. Qed.

(** In [error] the address is [null], so a submission never passes the
    network check there. *)
Lemma handleRegister_never_passes_on_null (r : State) (w : World) :
  currentIp r = null ->
  handleRegister r w =
    (Ok false,
     snd (setErrorMessage
            (Some (if falsy_string (trim (fullName r))
                   then msg_name_required else msg_wrong_network)) w)).
Proof.
  intros Hip. unfold handleRegister. rewrite Hip, strict_eq_string_null.
  destruct (falsy_string (trim (fullName r))); reflexivity.
Qed.

(** How the status moves in one step from a configuration satisfying the
    invariant. *)
Lemma step_status (c c' : Config) (e : Event) :
  Inv c ->
  step c e = Some c' ->
  (status (st c') = status (st c)
   /\ (e = Submit \/ exists v, e = ChangeName v))
  \/ edge (status (st c)) e (status (st c')).
Proof.
  destruct c as [[[n a stt em] rs cs] lf pf].
  unfold Inv, st. simpl. intros (Hl & Hp & Hnull & Hidle) Hstep.
  destruct e as [o | v | | o | ]; simpl in Hstep.
  - destruct lf; [|discriminate].
    assert (stt = loading_ip) by now apply Hl. subst stt.
    injection Hstep as <-. right. simpl.
    pose proof (fetchIp_resume_state o {| state := mkState n a loading_ip em;
                                          requests := rs; console := cs |}) as [E _].
    rewrite E. unfold with_settled_lookup. simpl.
    destruct (lookup_value o); simpl; constructor.
  - unfold controls in Hstep. simpl in Hstep.
    destruct stt; simpl in Hstep; try discriminate;
      injection Hstep as <-; left; simpl; eauto.
  - unfold controls in Hstep. simpl in Hstep.
    destruct stt; simpl in Hstep; try discriminate; try congruence.
    + destruct (handleRegister _ _) as [r w'] eqn:E.
      injection Hstep as <-. simpl.
      unfold handleRegister in E. simpl in E.
      destruct (falsy_string (trim n));
        [| destruct (strict_eq_string a OFFICE_IP)];
        injection E as <- <-; simpl; auto using edge.
    + destruct (handleRegister _ _) as [r w'] eqn:E.
      injection Hstep as <-. simpl.
      rewrite handleRegister_never_passes_on_null in E by (simpl; auto).
      injection E as <- <-. simpl. auto.
  - destruct pf; [|discriminate].
    assert (stt = submitting) by now apply Hp. subst stt.
    injection Hstep as <-. right.
    destruct o; simpl; constructor.
  - unfold controls in Hstep. simpl in Hstep.
    destruct stt; simpl in Hstep; try discriminate.
    injection Hstep as <-. right. simpl. constructor.
Qed.

Lemma step_preserves_Inv (c c' : Config) (e : Event) :
  Inv c ->
  step c e = Some c' ->
  Inv c'.
Proof.
  destruct c as [[[n a stt em] rs cs] lf pf].
  unfold Inv, st. simpl. intros (Hl & Hp & Hnull & Hidle) Hstep.
  destruct e as [o | v | | o | ]; simpl in Hstep.
  - destruct lf; [|discriminate].
    assert (stt = loading_ip) by now apply Hl. subst stt.
    flag_off pf Hp.
    assert (a = null) by auto. subst a.
    injection Hstep as <-. simpl.
    pose proof (fetchIp_resume_state o {| state := mkState n null loading_ip em;
                                          requests := rs; console := cs |}) as [E _].
    rewrite E. unfold with_settled_lookup. simpl.
    destruct (lookup_value o); simpl;
      repeat split; try congruence; intros [?|?]; congruence.
  - unfold controls in Hstep. simpl in Hstep.
    destruct stt; simpl in Hstep; try discriminate;
      injection Hstep as <-; simpl; auto.
  - unfold controls in Hstep. simpl in Hstep.
    destruct stt; simpl in Hstep; try discriminate; try congruence.
    + destruct (handleRegister _ _) as [r w'] eqn:E.
      injection Hstep as <-. simpl.
      flag_off lf Hl. flag_off pf Hp.
      unfold handleRegister in E. simpl in E.
      destruct (falsy_string (trim n));
        [| destruct (strict_eq_string a OFFICE_IP)];
        injection E as <- <-; simpl;
        repeat split; try congruence; intros [?|?]; congruence.
    + destruct (handleRegister _ _) as [r w'] eqn:E.
      injection Hstep as <-. simpl.
      rewrite handleRegister_never_passes_on_null in E by (simpl; auto).
      injection E as <- <-. simpl. auto.
  - destruct pf; [|discriminate].
    assert (stt = submitting) by now apply Hp. subst stt.
    flag_off lf Hl.
    injection Hstep as <-.
    destruct o; simpl; repeat split; try congruence; intros [?|?]; congruence.
  - unfold controls in Hstep. simpl in Hstep.
    destruct stt; simpl in Hstep; try discriminate.
    flag_off lf Hl.
    flag_off pf Hp.
    injection Hstep as <-. simpl.
    repeat split; try congruence; intros [?|?]; congruence.
Qed.

Lemma run_preserves_Inv (evs : list Event) (c c' : Config) :
  Inv c ->
  run c evs = Some c' ->
  Inv c'.
Proof.
  revert c. induction evs as [|e evs IH]; simpl; intros c HI Hrun.
  - now injection Hrun as <-.
  - destruct (step c e) as [c1|] eqn:E; [|discriminate].
    eapply IH; [|exact Hrun]. eapply step_preserves_Inv; eauto.
Qed.

Lemma reachable_Inv (c : Config) : reachable c -> Inv c.
Proof.
  intros [evs Hrun]. eapply run_preserves_Inv; [apply Inv_initial | exact Hrun].
Qed.

(** C8 (amended). A session begins in [loading_ip] and its status is
    never [idle]; from there every event either leaves the status as it
    is (an edit of the name, a submission that fails a check) or takes one
    of the edges [loading_ip -> ready], [loading_ip -> error] (the lookup
    settles), [ready -> submitting] (submit), [submitting -> success],
    [submitting -> ready] (the POST settles) and [success -> ready]
    ("register another"). *)
Theorem status_moves_along_edges (c c' : Config) (e : Event) :
  reachable c ->
  step c e = Some c' ->
  status useState_initial = loading_ip
  /\ status (st initial) = loading_ip
  /\ status (st c) <> idle
  /\ status (st c') <> idle
  /\ ((status (st c') = status (st c)
       /\ (e = Submit \/ exists v, e = ChangeName v))
      \/ edge (status (st c)) e (status (st c'))).
Proof.
  intros Hr Hstep. pose proof (reachable_Inv _ Hr) as HI.
  pose proof (step_preserves_Inv _ _ _ HI Hstep) as HI'.
  split; [reflexivity|]. split; [reflexivity|].
  split; [apply HI|]. split; [apply HI'|].
  exact (step_status _ _ _ HI Hstep).
Qed.

(** ** A failed lookup *)

Lemma Stuck_after_failed_lookup (o : Settled) (c : Config) :
  lookup_fails o = true ->
  step initial (LookupSettled o) = Some c ->
  Stuck c.
Proof.
  intros Hf Hstep. simpl in Hstep. injection Hstep as <-.
  apply lookup_value_fails in Hf.
  unfold Stuck, st, sent. simpl.
  match goal with |- context [fetchIp_resume o ?w] =>
    destruct (fetchIp_resume_state o w) as [E1 E2] end.
  rewrite E1, E2. unfold with_settled_lookup. rewrite Hf. simpl.
  repeat split.
Qed.

Lemma Stuck_step (c c' : Config) (e : Event) :
  Stuck c ->
  step c e = Some c' ->
  Stuck c'.
Proof.
  destruct c as [[[n a stt em] rs cs] lf pf].
  unfold Stuck, st, sent. simpl. intros (-> & -> & -> & -> & Hposts) Hstep.
  destruct e as [o | v | | o | ]; simpl in Hstep; try discriminate.
  - injection Hstep as <-. simpl. auto.
  - rewrite handleRegister_never_passes_on_null in Hstep by reflexivity.
    injection Hstep as <-. simpl. auto.
Qed.

Lemma Stuck_run (evs : list Event) (c c' : Config) :
  Stuck c ->
  run c evs = Some c' ->
  Stuck c'.
Proof.
  revert c. induction evs as [|e evs IH]; simpl; intros c HS Hrun.
  - now injection Hrun as <-.
  - destruct (step c e) as [c1|] eqn:E; [|discriminate].
    eapply IH; [|exact Hrun]. eapply Stuck_step; eauto.
Qed.

(** C5 (amended). If the identity lookup fails, the status becomes
    [error] and stays [error] for the rest of the session, and no POST is
    ever sent.  The input and the submit button are not disabled in that
    state: a submission can be made, but it always stops at one of the two
    checks (at the name check when the trimmed name is empty, at the
    network check otherwise), sets the message of that check and leaves
    the status [error]. *)
Theorem failed_lookup_is_terminal (o : Settled) (evs : list Event) (c : Config) :
  lookup_fails o = true ->
  run initial (LookupSettled o :: evs) = Some c ->
  status (st c) = error
  /\ posts (sent c) = []
  /\ (exists f, render (st c) = Form f
                /\ inputDisabled f = false
                /\ submitDisabled f = false)
  /\ (exists c', step c Submit = Some c'
                 /\ status (st c') = error
                 /\ sent c' = sent c
                 /\ (trim (fullName (st c)) = [] ->
                     errorMessage (st c') = Some msg_name_required)
                 /\ (trim (fullName (st c)) <> [] ->
                     errorMessage (st c') = Some msg_wrong_network)).
Proof.
  intros Hf Hrun. change (run initial (LookupSettled o :: evs))
    with (match step initial (LookupSettled o) with
          | Some c1 => run c1 evs | None => None end) in Hrun.
  destruct (step initial (LookupSettled o)) as [c1|] eqn:E1; [|discriminate].
  pose proof (Stuck_run evs _ _ (Stuck_after_failed_lookup o _ Hf E1) Hrun) as HS.
  destruct c as [[[n a stt em] rs cs] lf pf].
  unfold Stuck, st, sent in *. simpl in *.
  destruct HS as (-> & -> & -> & -> & Hposts).
  split; [reflexivity|]. split; [assumption|]. split.
  - unfold render. simpl. eexists. split; [reflexivity|]. split; reflexivity.
  - rewrite handleRegister_never_passes_on_null by reflexivity.
    eexists. split; [reflexivity|]. simpl.
    split; [reflexivity|]. split; [reflexivity|].
    split; intros Hn.
    + now rewrite Hn.
    + apply falsy_string_false in Hn. now rewrite Hn.
Qed.

(** ** The identity lookup *)

(** C6 (amended). When the lookup settles: a successful response whose
    body is an object holding the address as a string stores that string
    and sets the status [ready]; a rejected fetch, a response that is not
    [ok], a body that does not parse and a body that parses to [null] set
    the message 'Could not verify your network connection.' and the status
    [error]; every other parseable body, one that lacks the address field
    among them, is not a failure: the status becomes [ready], no message
    is set, and the stored address is the value of [data.ip], [undefined]
    when the field is missing. *)
Theorem lookup_settlement_outcomes (c : Config) (o : Settled) :
  lookupInFlight c = true ->
  exists c',
    step c (LookupSettled o) = Some c'
    /\ (forall resp ms a,
          o = Resolved resp -> ok resp = true ->
          parsed resp = Some (JObj ms) ->
          lookup_member (lit "ip") ms = Some (JStr a) ->
          status (st c') = ready /\ currentIp (st c') = VStr a
          /\ errorMessage (st c') = errorMessage (st c))
    /\ (lookup_fails o = true ->
        status (st c') = error
        /\ errorMessage (st c') = Some msg_lookup_failed
        /\ currentIp (st c') = currentIp (st c))
    /\ (lookup_fails o = false ->
        status (st c') = ready
        /\ errorMessage (st c') = errorMessage (st c)
        /\ lookup_value o = Some (currentIp (st c')))
    /\ (forall resp ms,
          o = Resolved resp -> ok resp = true ->
          parsed resp = Some (JObj ms) ->
          lookup_member (lit "ip") ms = None ->
          status (st c') = ready /\ currentIp (st c') = VUndefined
          /\ errorMessage (st c') = errorMessage (st c)).
Proof.
  intros Hl. unfold step. rewrite Hl. eexists. split; [reflexivity|].
  unfold st. simpl.
  destruct (fetchIp_resume_state o (world c)) as [E _]. rewrite E.
  unfold with_settled_lookup.
  split; [|split; [|split]].
  - intros resp ms a -> Hok Hp Hm. simpl. rewrite Hok, Hp. simpl.
    rewrite Hm. repeat split.
  - intros Hf. apply lookup_value_fails in Hf. rewrite Hf. repeat split.
  - intros Hf. destruct (lookup_value o) as [v|] eqn:Ev.
    + repeat split.
    + apply lookup_value_fails in Ev. congruence.
  - intros resp ms -> Hok Hp Hm. simpl. rewrite Hok, Hp. simpl.
    rewrite Hm. repeat split.
Qed.

(** ** The detected address along a session *)

Lemma step_keeps_address (c c' : Config) (e : Event) :
  step c e = Some c' ->
  (forall o, e <> LookupSettled o) ->
  lookupInFlight c' = lookupInFlight c
  /\ currentIp (st c') = currentIp (st c).
Proof.
  destruct c as [[[n a stt em] rs cs] lf pf]. unfold st. simpl.
  intros Hstep Hne.
  destruct e as [o | v | | o | ]; simpl in Hstep.
  - now elim (Hne o).
  - unfold controls in Hstep. simpl in Hstep.
    destruct (AppStatus_eqb stt success); [discriminate|]. simpl in Hstep.
    destruct (_ || _); [discriminate|]. now injection Hstep as <-.
  - unfold controls in Hstep. simpl in Hstep.
    destruct (AppStatus_eqb stt success); [discriminate|]. simpl in Hstep.
    destruct (_ || _); [discriminate|].
    destruct (handleRegister _ _) as [r w'] eqn:E.
    injection Hstep as <-. simpl. split; [reflexivity|].
    unfold handleRegister in E. simpl in E.
    destruct (falsy_string (trim n));
      [| destruct (strict_eq_string a OFFICE_IP)];
      now injection E as <- <-.
  - destruct pf; [|discriminate]. injection Hstep as <-.
    now destruct o.
  - unfold controls in Hstep. simpl in Hstep.
    destruct (AppStatus_eqb stt success); [|discriminate].
    now injection Hstep as <-.
Qed.

Lemma Traced_initial : Traced [] initial.
Proof.
  split; [apply Inv_initial|]. simpl. intros o [].
Qed.

Lemma Traced_step (hist : list Event) (c c' : Config) (e : Event) :
  Traced hist c ->
  step c e = Some c' ->
  Traced (hist ++ [e]) c'.
Proof.
  intros [HI HT] Hstep.
  pose proof (step_preserves_Inv _ _ _ HI Hstep) as HI'.
  pose proof (step_status _ _ _ HI Hstep) as Hst.
  split; [exact HI'|].
  assert (Hcase : (exists o, e = LookupSettled o) \/ forall o, e <> LookupSettled o)
    by (destruct e; [left; eauto | right; discriminate ..]).
  destruct Hcase as [[o ->] | Hne].
  - simpl in Hstep. destruct (lookupInFlight c) eqn:Hl; [|discriminate].
    injection Hstep as <-. simpl. exists o. split; [|split].
    + apply in_or_app. right. now left.
    + intros o' Hin. apply in_app_or in Hin as [Hin | [Heq | []]].
      * now elim (HT o').
      * congruence.
    + unfold st. simpl.
      destruct (fetchIp_resume_state o (world c)) as [E _]. rewrite E.
      unfold with_settled_lookup.
      destruct (lookup_value o); simpl; [split; congruence | reflexivity].
  - destruct (step_keeps_address _ _ _ Hstep Hne) as [El Ea]. rewrite El.
    destruct (lookupInFlight c).
    + intros o Hin. apply in_app_or in Hin as [Hin | [Heq | []]].
      * now elim (HT o).
      * now elim (Hne o).
    + destruct HT as (o & Hin & Huniq & Hval).
      exists o. split; [|split].
      * apply in_or_app. now left.
      * intros o' Hin'. apply in_app_or in Hin' as [Hin' | [Heq | []]].
        -- now apply Huniq.
        -- now elim (Hne o').
      * destruct (lookup_value o) as [v|].
        -- destruct Hval as [Hv Hnerr]. split; [congruence|].
           destruct Hst as [[Hsame _] | Hedge]; [congruence|].
           intros Herr. rewrite Herr in Hedge. inversion Hedge; subst.
           now elim (Hne o0).
        -- destruct Hst as [[Hsame _] | Hedge]; [congruence|].
           rewrite Hval in Hedge. inversion Hedge.
Qed.

Lemma Traced_run (evs hist : list Event) (c c' : Config) :
  Traced hist c ->
  run c evs = Some c' ->
  Traced (hist ++ evs) c'.
Proof.
  revert hist c. induction evs as [|e evs IH]; simpl; intros hist c HT Hrun.
  - injection Hrun as <-. now rewrite app_nil_r.
  - destruct (step c e) as [c1|] eqn:E; [|discriminate].
    replace (hist ++ e :: evs) with ((hist ++ [e]) ++ evs)
      by (rewrite <- app_assoc; reflexivity).
    eapply IH; [|exact Hrun]. eapply Traced_step; eauto.
Qed.

(** C7 (amended). In every reachable state the detected address is
    absent ([null]) while the status is [loading_ip] and also in [error];
    in every other state it is the value of [data.ip] of the one lookup
    that settled, so it is present there whenever the identity service
    returned an address string. *)
Theorem address_absent_in_loading_and_error (evs : list Event) (c : Config) :
  run initial evs = Some c ->
  (status (st c) = loading_ip \/ status (st c) = error ->
   currentIp (st c) = null)
  /\ (status (st c) <> loading_ip -> status (st c) <> error ->
      exists o, In (LookupSettled o) evs
                /\ lookup_value o = Some (currentIp (st c)))
  /\ (forall o a,
        In (LookupSettled o) evs ->
        lookup_value o = Some (VStr a) ->
        currentIp (st c) = VStr a
        /\ status (st c) <> loading_ip /\ status (st c) <> error).
Proof.
  intros Hrun.
  destruct (Traced_run evs [] _ _ Traced_initial Hrun) as [HI HT]. simpl in HT.
  destruct HI as (Hl & Hp & Hnull & Hidle).
  split; [exact Hnull|]. split.
  - intros Hnl Hne. destruct (lookupInFlight c).
    + elim Hnl. now apply Hl.
    + destruct HT as (o & Hin & _ & Hval). exists o. split; [exact Hin|].
      destruct (lookup_value o); [destruct Hval; congruence | contradiction].
  - intros o a Hin Hv. destruct (lookupInFlight c) eqn:Ef.
    + now elim (HT o).
    + destruct HT as (o1 & _ & Huniq & Hval).
      rewrite <- (Huniq o Hin), Hv in Hval. destruct Hval as [Ha Hne].
      split; [exact Ha|]. split; [|exact Hne].
      intros Hld. apply Hl in Hld. discriminate.
Qed.

(** ** One step, field by field *)

Lemma falsy_string_true (s : jsstring) : falsy_string s = true <-> s = [].
Proof. destruct s; simpl; split; congruence. Qed.

Lemma step_inversion (c c' : Config) (e : Event) :
  step c e = Some c' ->
  match e with
  | LookupSettled o =>
      lookupInFlight c = true /\ lookupInFlight c' = false
      /\ postInFlight c' = postInFlight c
      /\ st c' = with_settled_lookup (st c) o
      /\ sent c' = sent c
  | ChangeName v =>
      controls_enabled (status (st c))
      /\ lookupInFlight c' = lookupInFlight c
      /\ postInFlight c' = postInFlight c
      /\ st c' = state_with_name (st c) v
      /\ sent c' = sent c
  | Submit =>
      controls_enabled (status (st c))
      /\ lookupInFlight c' = lookupInFlight c
      /\ ((trim (fullName (st c)) = []
           /\ st c' = state_with_error (st c) (Some msg_name_required)
           /\ sent c' = sent c /\ postInFlight c' = postInFlight c)
          \/ (trim (fullName (st c)) <> []
              /\ currentIp (st c) <> VStr OFFICE_IP
              /\ st c' = state_with_error (st c) (Some msg_wrong_network)
              /\ sent c' = sent c /\ postInFlight c' = postInFlight c)
          \/ (trim (fullName (st c)) <> []
              /\ currentIp (st c) = VStr OFFICE_IP
              /\ st c' = state_with_status (state_with_error (st c) None) submitting
              /\ sent c' = sent c ++ [webhook_request (payload_of c)]
              /\ postInFlight c' = true))
  | PostSettled o =>
      postInFlight c = true /\ postInFlight c' = false
      /\ lookupInFlight c' = lookupInFlight c
      /\ sent c' = sent c
      /\ st c' = match o with
                 | Resolved _ => state_with_status (st c) success
                 | Rejected =>
                     state_with_status
                       (state_with_error (st c) (Some msg_submission_failed))
                       ready
                 end
  | RegisterAnother =>
      status (st c) = success
      /\ lookupInFlight c' = lookupInFlight c
      /\ postInFlight c' = postInFlight c
      /\ st c' = state_with_name (state_with_status (st c) ready) []
      /\ sent c' = sent c
  end.
Proof.
  destruct c as [[[n a stt em] rs cs] lf pf].
  unfold st, sent, controls_enabled. intros Hstep.
  destruct e as [o | v | | o | ]; simpl in Hstep.
  - destruct lf; [|discriminate]. injection Hstep as <-. simpl.
    match goal with |- context [fetchIp_resume o ?w] =>
      destruct (fetchIp_resume_state o w) as [E1 E2] end.
    rewrite E1, E2. repeat split.
  - unfold controls in Hstep. simpl in Hstep.
    destruct stt; simpl in Hstep; try discriminate;
      injection Hstep as <-; simpl; repeat split; discriminate.
  - unfold controls in Hstep. simpl in Hstep.
    destruct (falsy_string (trim n)) eqn:En;
      [apply falsy_string_true in En | apply falsy_string_false in En].
    + rewrite handleRegister_blank in Hstep by exact En.
      destruct stt; simpl in Hstep; try discriminate;
        injection Hstep as <-; simpl;
        (split; [repeat split; discriminate|]);
        (split; [reflexivity|]); left; repeat split; exact En.
    + destruct (strict_eq_string a OFFICE_IP) eqn:Ea;
        [apply strict_eq_string_true in Ea
        | apply strict_eq_string_false in Ea].
      * rewrite handleRegister_pass in Hstep by assumption.
        destruct stt; simpl in Hstep; try discriminate;
          injection Hstep as <-; simpl;
          (split; [repeat split; discriminate|]);
          (split; [reflexivity|]); right; right; repeat split; assumption.
      * rewrite handleRegister_wrong_network in Hstep by assumption.
        destruct stt; simpl in Hstep; try discriminate;
          injection Hstep as <-; simpl;
          (split; [repeat split; discriminate|]);
          (split; [reflexivity|]); right; left; repeat split; assumption.
  - destruct pf; [|discriminate]. injection Hstep as <-.
    destruct o; simpl; repeat split.
  - unfold controls in Hstep. simpl in Hstep.
    destruct stt; simpl in Hstep; try discriminate.
    injection Hstep as <-. simpl. repeat split.
Qed.

(** An invariant established at the start and kept by every step holds
    after every sequence of events. *)
Lemma run_invariant (P : Config -> Prop) :
  (forall c c' e, P c -> step c e = Some c' -> P c') ->
  forall evs c c', P c -> run c evs = Some c' -> P c'.
Proof.
  intros Hkeep. induction evs as [|e evs IH]; simpl; intros c c' HP Hrun.
  - now injection Hrun as <-.
  - destruct (step c e) as [c1|] eqn:E; [|discriminate].
    eapply IH; [|exact Hrun]. eapply Hkeep; eauto.
Qed.

(** ** The requests of a session *)

Lemma gets_posts (rs : list Request) : gets (posts rs) = [].
Proof.
  induction rs as [|r rs IH]; simpl; [reflexivity|].
  destruct (method r) eqn:E; simpl; [exact IH|]. now rewrite E.
Qed.

Lemma gets_app_post (rs : list Request) (p : Payload) :
  gets (rs ++ [webhook_request p]) = gets rs.
Proof. unfold gets. rewrite filter_app. simpl. apply app_nil_r. Qed.

Lemma Traffic_initial : Traffic initial.
Proof. split; [reflexivity | constructor]. Qed.

Lemma Traffic_step (c c' : Config) (e : Event) :
  Traffic c -> step c e = Some c' -> Traffic c'.
Proof.
  intros [Hs Hc] Hstep. apply step_inversion in Hstep.
  assert (Hsame : sent c' = sent c -> Traffic c')
    by (intros E; unfold Traffic; rewrite E; now split).
  destruct e as [o | v | | o | ];
    try (apply Hsame; decompose [and] Hstep; assumption).
  destruct Hstep as (_ & _ & [H | [H | H]]);
    try (apply Hsame; decompose [and] H; assumption).
  destruct H as (Hn & Hip & _ & Hsent & _).
  unfold Traffic. rewrite Hsent, posts_app. simpl. split.
  - rewrite Hs at 1. reflexivity.
  - apply Forall_app. split; [exact Hc|]. constructor; [|constructor].
    unfold compliant, payload_of. simpl. repeat split.
    exists (fullName (st c)). split; [exact Hn|]. now rewrite Hip.
Qed.

Lemma reachable_Traffic (c : Config) : reachable c -> Traffic c.
Proof.
  intros [evs Hrun].
  exact (run_invariant Traffic Traffic_step evs _ _ Traffic_initial Hrun).
Qed.

(** X1. Whatever the user and the network do, every POST a session has
    sent was addressed to the webhook, with [mode: 'no-cors'] and a JSON
    content type among the arguments of [fetch], and its body is a payload
    with the office address, the browser's user-agent string and a name
    whose trimmed form is not empty. *)
Theorem every_post_is_compliant (c : Config) :
  reachable c ->
  Forall compliant (posts (sent c)).
Proof. intros Hr. apply (reachable_Traffic _ Hr). Qed.

(** X2. A session looks its address up exactly once: the first request
    is the GET to the identity service and every later request is a POST;
    no event, "register another" included, makes a second lookup. *)
Theorem one_lookup_then_posts (c : Config) :
  reachable c ->
  sent c = lookup_request :: posts (sent c)
  /\ gets (sent c) = [lookup_request].
Proof.
  intros Hr. destruct (reachable_Traffic _ Hr) as [Hs _].
  split; [exact Hs|]. rewrite Hs. simpl. now rewrite gets_posts.
Qed.

(** X3. While the lookup or a POST is pending, no user event can be
    delivered: the name cannot be edited, the form cannot be submitted and
    "register another" is not on screen; and the two are never pending
    together. *)
Theorem no_user_event_while_pending (c : Config) :
  reachable c ->
  lookupInFlight c = true \/ postInFlight c = true ->
  step c Submit = None
  /\ (forall v, step c (ChangeName v) = None)
  /\ step c RegisterAnother = None
  /\ lookupInFlight c && postInFlight c = false.
Proof.
  intros Hr Hpend. destruct (reachable_Inv _ Hr) as (Hl & Hp & _ & _).
  destruct c as [[[n a stt em] rs cs] lf pf]. unfold st in *. simpl in *.
  destruct Hpend as [-> | ->].
  - assert (stt = loading_ip) by now apply Hl. subst stt.
    flag_off pf Hp. repeat split.
  - assert (stt = submitting) by now apply Hp. subst stt.
    flag_off lf Hl. repeat split.
Qed.

(** ** The address after the lookup *)

(** X5. Once the lookup has settled, no sequence of events changes the
    detected address, starts another lookup or sends another GET: a
    registration made after "register another" is checked against the
    address found at start-up. *)
Theorem address_fixed_after_lookup (evs : list Event) (c c' : Config) :
  lookupInFlight c = false ->
  run c evs = Some c' ->
  currentIp (st c') = currentIp (st c)
  /\ lookupInFlight c' = false
  /\ gets (sent c') = gets (sent c).
Proof.
  intros Hl Hrun.
  refine (run_invariant
            (fun x => currentIp (st x) = currentIp (st c)
                      /\ lookupInFlight x = false
                      /\ gets (sent x) = gets (sent c))
            _ evs c c' _ Hrun); [|now repeat split].
  clear. intros x x' e (Ha & Hf & Hg) Hstep.
  apply step_inversion in Hstep.
  destruct e as [o | v | | o | ].
  - destruct Hstep as (Ht & _). congruence.
  - destruct Hstep as (_ & El & _ & Es & Er). rewrite Es, Er. simpl.
    repeat split; congruence.
  - destruct Hstep as (_ & El & [H | [H | H]]).
    + destruct H as (_ & Es & Er & _). rewrite Es, Er. simpl.
      repeat split; congruence.
    + destruct H as (_ & _ & Es & Er & _). rewrite Es, Er. simpl.
      repeat split; congruence.
    + destruct H as (_ & _ & Es & Er & _). rewrite Es, Er. simpl.
      rewrite gets_app_post. repeat split; congruence.
  - destruct Hstep as (_ & _ & El & Er & Es). rewrite Es, Er.
    destruct o; simpl; repeat split; congruence.
  - destruct Hstep as (_ & El & _ & Es & Er). rewrite Es, Er. simpl.
    repeat split; congruence.
Qed.

Lemma OffNetwork_step (c c' : Config) (e : Event) :
  OffNetwork c -> step c e = Some c' -> OffNetwork c'.
Proof.
  intros (Hl & Hp & Ha & Hs & Hst) Hstep. apply step_inversion in Hstep.
  unfold OffNetwork.
  destruct e as [o | v | | o | ].
  - destruct Hstep as (Ht & _). congruence.
  - destruct Hstep as (_ & El & Ep & Es & Er). rewrite El, Ep, Es, Er.
    simpl. repeat split; assumption.
  - destruct Hstep as (_ & El & [H | [H | H]]).
    + destruct H as (_ & Es & Er & Ep). rewrite El, Ep, Es, Er.
      simpl. repeat split; assumption.
    + destruct H as (_ & _ & Es & Er & Ep). rewrite El, Ep, Es, Er.
      simpl. repeat split; assumption.
    + destruct H as (_ & Hip & _). contradiction.
  - destruct Hstep as (Ht & _). congruence.
  - destruct Hstep as (Ht & _). destruct Hst; congruence.
Qed.

(** X6. If the lookup does not deliver the office address as a string (it
    fails, or returns another address, a non-string value or no address
    field), then for the rest of the session no POST is sent and the
    status is never [submitting] or [success]: the network check cannot be
    got round by any sequence of edits and submissions. *)
Theorem off_network_never_posts (o : Settled) (evs : list Event) (c : Config) :
  lookup_value o <> Some (VStr OFFICE_IP) ->
  run initial (LookupSettled o :: evs) = Some c ->
  posts (sent c) = []
  /\ postInFlight c = false
  /\ (status (st c) = ready \/ status (st c) = error).
Proof.
  intros Hv Hrun. change (run initial (LookupSettled o :: evs))
    with (match step initial (LookupSettled o) with
          | Some c1 => run c1 evs | None => None end) in Hrun.
  destruct (step initial (LookupSettled o)) as [c1|] eqn:E1; [|discriminate].
  assert (H1 : OffNetwork c1).
  { apply step_inversion in E1. destruct E1 as (_ & El & Ep & Es & Er).
    unfold OffNetwork. rewrite El, Ep, Es, Er.
    unfold with_settled_lookup.
    destruct (lookup_value o) as [v|]; simpl; repeat split; auto.
    - congruence.
    - discriminate. }
  destruct (run_invariant OffNetwork OffNetwork_step evs _ _ H1 Hrun)
    as (_ & Hp & _ & Hs & Hst).
  auto.
Qed.

(** ** POSTs and their settlements *)

Lemma enabled_not_posting (c : Config) :
  Inv c -> controls_enabled (status (st c)) -> postInFlight c = false.
Proof.
  intros (_ & Hp & _) (_ & Hs & _).
  destruct (postInFlight c); [|reflexivity]. elim Hs. now apply Hp.
Qed.

Lemma settled_posts_cons (e : Event) (evs : list Event) :
  settled_posts (e :: evs) = settled_posts [e] + settled_posts evs.
Proof. unfold settled_posts. destruct e; reflexivity. Qed.

Lemma step_posts_balance (c c' : Config) (e : Event) :
  Inv c ->
  step c e = Some c' ->
  List.length (posts (sent c')) + in_flight (postInFlight c)
  = List.length (posts (sent c)) + in_flight (postInFlight c')
    + settled_posts [e].
Proof.
  intros HI Hstep. apply step_inversion in Hstep.
  destruct e as [o | v | | o | ]; unfold settled_posts; simpl.
  - destruct Hstep as (_ & _ & Ep & _ & Er). rewrite Ep, Er. lia.
  - destruct Hstep as (_ & _ & Ep & _ & Er). rewrite Ep, Er. lia.
  - destruct Hstep as (Hen & _ & [H | [H | H]]).
    + destruct H as (_ & _ & Er & Ep). rewrite Ep, Er. lia.
    + destruct H as (_ & _ & _ & Er & Ep). rewrite Ep, Er. lia.
    + destruct H as (_ & _ & _ & Er & Ep).
      rewrite Ep, Er, posts_app, length_app, (enabled_not_posting _ HI Hen).
      simpl. lia.
  - destruct Hstep as (Ep & Ep' & _ & Er & _). rewrite Ep, Ep', Er. simpl. lia.
  - destruct Hstep as (_ & _ & Ep & _ & Er). rewrite Ep, Er. lia.
Qed.

Lemma run_posts_balance (evs : list Event) (c c' : Config) :
  Inv c ->
  run c evs = Some c' ->
  List.length (posts (sent c')) + in_flight (postInFlight c)
  = List.length (posts (sent c)) + in_flight (postInFlight c')
    + settled_posts evs.
Proof.
  revert c. induction evs as [|e evs IH]; simpl; intros c HI Hrun.
  - injection Hrun as <-. unfold settled_posts. simpl. lia.
  - destruct (step c e) as [c1|] eqn:E; [|discriminate].
    pose proof (step_posts_balance _ _ _ HI E) as H1.
    pose proof (IH c1 (step_preserves_Inv _ _ _ HI E) Hrun) as H2.
    rewrite (settled_posts_cons e evs). lia.
Qed.

(** X4. Along every session the number of POSTs sent is the number of
    POSTs that have settled plus one if a POST is pending: a new POST is
    only sent once the previous one has settled, so at most one is
    outstanding at any time. *)
Theorem posts_sent_match_settlements (evs : list Event) (c : Config) :
  run initial evs = Some c ->
  List.length (posts (sent c))
  = settled_posts evs + in_flight (postInFlight c).
Proof.
  intros Hrun. pose proof (run_posts_balance evs _ _ Inv_initial Hrun) as H.
  simpl in H. lia.
Qed.

(** ** The developer console *)

Lemma step_console (c c' : Config) (e : Event) :
  step c e = Some c' ->
  List.length (console (world c'))
  = List.length (console (world c)) + (if is_failure e then 1 else 0).
Proof.
  destruct c as [[[n a stt em] rs cs] lf pf]. intros Hstep.
  destruct e as [o | v | | o | ]; simpl in Hstep.
  - destruct lf; [|discriminate]. injection Hstep as <-.
    destruct o as [|[[|] [[]|]]]; simpl; rewrite ?length_app; simpl; lia.
  - unfold controls in Hstep. simpl in Hstep.
    destruct stt; simpl in Hstep; try discriminate;
      injection Hstep as <-; simpl; lia.
  - unfold controls, handleRegister in Hstep. simpl in Hstep.
    destruct (falsy_string (trim n));
      [| destruct (strict_eq_string a OFFICE_IP)];
      destruct stt; simpl in Hstep; try discriminate;
      injection Hstep as <-; simpl; lia.
  - destruct pf; [|discriminate]. injection Hstep as <-.
    destruct o; simpl; rewrite ?length_app; simpl; lia.
  - unfold controls in Hstep. simpl in Hstep.
    destruct stt; simpl in Hstep; try discriminate.
    injection Hstep as <-. simpl. lia.
Qed.

(** X13. The console receives one entry for each settlement on which a
    [catch] block runs (a failed lookup, a POST that failed at transport
    level) and nothing else: a rejected name, a wrong network and a
    completed registration are not logged. *)
Theorem console_logs_failed_settlements (evs : list Event) (c c' : Config) :
  run c evs = Some c' ->
  List.length (console (world c'))
  = List.length (console (world c)) + failures evs.
Proof.
  revert c. induction evs as [|e evs IH]; simpl; intros c Hrun.
  - injection Hrun as <-. unfold failures. simpl. lia.
  - destruct (step c e) as [c1|] eqn:E; [|discriminate].
    rewrite (IH _ Hrun), (step_console _ _ _ E).
    unfold failures. simpl. destruct (is_failure e); simpl; lia.
Qed.

(** ** What the screen shows *)

(** X7. With a name whose trimmed form is not empty and the form enabled,
    the banner is in its office-network style exactly when a submission
    would be dispatched: the banner and the check of [handleRegister]
    compare the address with the same constant in the same way. *)
Theorem banner_agrees_with_check (c : Config) (f : FormView) :
  render (st c) = Form f ->
  submitDisabled f = false ->
  trim (fullName (st c)) <> [] ->
  (onOfficeNetwork f = true <->
   exists c', step c Submit = Some c' /\ status (st c') = submitting).
Proof.
  destruct c as [[[n a stt em] rs cs] lf pf]. unfold st. simpl.
  intros Hr Hd Hn. apply falsy_string_false in Hn.
  unfold render in Hr. cbn [status] in Hr.
  destruct (AppStatus_eqb stt success) eqn:Es; [discriminate|].
  destruct (banner_text _) as [text|err]; [|discriminate].
  injection Hr as <-. cbn [submitDisabled onOfficeNetwork] in *.
  unfold step, controls, handleRegister. cbn [state world status fullName currentIp].
  rewrite Es, Hd, Hn.
  destruct (strict_eq_string a OFFICE_IP); simpl; split; try discriminate.
  - intros _. eexists. split; reflexivity.
  - reflexivity.
  - intros (c' & Hc' & Hs). injection Hc' as <-. simpl in Hs. subst stt.
    discriminate Hd.
Qed.

Ltac nonempty_message :=
  let X := fresh in intros X; vm_compute in X; discriminate X.

Lemma Messages_step (c c' : Config) (e : Event) :
  Inv c /\ Messages c -> step c e = Some c' -> Inv c' /\ Messages c'.
Proof.
  intros [HI [Hnone Hsome]] Hstep.
  split; [exact (step_preserves_Inv _ _ _ HI Hstep)|].
  destruct HI as (Hl & Hp & _ & _).
  apply step_inversion in Hstep. unfold Messages.
  destruct e as [o | v | | o | ].
  - destruct Hstep as (_ & _ & _ & Es & _). rewrite Es.
    unfold with_settled_lookup.
    destruct (lookup_value o); simpl; split;
      try (intros [?|[?|?]]; discriminate); try discriminate.
    intros _. eexists. split; [reflexivity | nonempty_message].
  - destruct Hstep as (_ & _ & _ & Es & _). rewrite Es. simpl. now split.
  - destruct Hstep as (Hen & _ & [H | [H | H]]).
    + destruct H as (_ & Es & _). rewrite Es. simpl. split.
      * destruct Hen as (? & ? & ?). intros [?|[?|?]]; contradiction.
      * intros _. eexists. split; [reflexivity | nonempty_message].
    + destruct H as (_ & _ & Es & _). rewrite Es. simpl. split.
      * destruct Hen as (? & ? & ?). intros [?|[?|?]]; contradiction.
      * intros _. eexists. split; [reflexivity | nonempty_message].
    + destruct H as (_ & _ & Es & _). rewrite Es. simpl. split;
        [reflexivity | discriminate].
  - destruct Hstep as (Ep & _ & _ & _ & Es). rewrite Es.
    apply Hp in Ep.
    destruct o; simpl; split; try discriminate;
      try (intros [?|[?|?]]; discriminate).
    intros _. apply Hnone. auto.
  - destruct Hstep as (_ & _ & _ & Es & _). rewrite Es. simpl. split;
      [intros [?|[?|?]]; discriminate | discriminate].
Qed.

(** X8. In every reachable state: while the status is [loading_ip],
    [submitting] or [success] no error message is set, and in [error]
    there always is one and the form shows it. *)
Theorem messages_follow_status (c : Config) :
  reachable c ->
  (status (st c) = loading_ip \/ status (st c) = submitting
   \/ status (st c) = success -> errorMessage (st c) = None)
  /\ (status (st c) = error ->
      exists f m, render (st c) = Form f
                  /\ errorMessage (st c) = Some m
                  /\ shownError f = Some m).
Proof.
  intros [evs Hrun].
  assert (H0 : Inv initial /\ Messages initial).
  { split; [apply Inv_initial|]. split; [reflexivity | discriminate]. }
  destruct (run_invariant _ Messages_step evs _ _ H0 Hrun)
    as [(_ & _ & Hnull & _) [Hnone Hsome]].
  split; [exact Hnone|]. intros Herr.
  destruct (Hsome Herr) as (m & Hm & Hne).
  unfold render, banner_text. rewrite Herr, Hm, (Hnull (or_intror Herr)).
  simpl.
  eexists; exists m. split; [reflexivity|]. split; [reflexivity|].
  simpl. destruct m; [contradiction | reflexivity].
Qed.

Lemma Dispatched_step (c c' : Config) (e : Event) :
  Inv c /\ Dispatched c -> step c e = Some c' -> Inv c' /\ Dispatched c'.
Proof.
  intros [HI HD] Hstep.
  split; [exact (step_preserves_Inv _ _ _ HI Hstep)|].
  destruct HI as (Hl & Hp & _ & _).
  apply step_inversion in Hstep. unfold Dispatched, payload_of in *.
  destruct e as [o | v | | o | ].
  - destruct Hstep as (_ & _ & _ & Es & _). rewrite Es.
    unfold with_settled_lookup.
    destruct (lookup_value o); simpl; intros [?|?]; discriminate.
  - destruct Hstep as ((? & ? & ?) & _ & _ & Es & _). rewrite Es. simpl.
    intros [?|?]; contradiction.
  - destruct Hstep as ((? & ? & ?) & _ & [H | [H | H]]).
    + destruct H as (_ & Es & _). rewrite Es. simpl.
      intros [?|?]; contradiction.
    + destruct H as (_ & _ & Es & _). rewrite Es. simpl.
      intros [?|?]; contradiction.
    + destruct H as (Hn & Hip & Es & Er & _). rewrite Es, Er. simpl.
      intros _. split; [exact Hip|]. split; [exact Hn|]. now exists (sent c).
  - destruct Hstep as (Ep & _ & _ & Er & Es). rewrite Es, Er.
    apply Hp in Ep.
    destruct o; simpl; [intros [?|?]; discriminate|].
    intros _. apply HD. now left.
  - destruct Hstep as (_ & _ & _ & Es & _). rewrite Es. simpl.
    intros [?|?]; discriminate.
Qed.

Lemma reachable_Dispatched (c : Config) : reachable c -> Dispatched c.
Proof.
  intros [evs Hrun].
  assert (H0 : Inv initial /\ Dispatched initial).
  { split; [apply Inv_initial|]. intros [?|?]; discriminate. }
  apply (run_invariant _ Dispatched_step evs _ _ H0 Hrun).
Qed.

(** X9. Whenever the status is [submitting] or [success], the last
    request sent is a POST to the webhook ([no-cors], JSON content type)
    whose body carries exactly the name still held in the state, the
    browser's user-agent string and the office address, which is also the
    detected address: the success screen is never shown without that POST
    having been sent. *)
Theorem success_reflects_last_post (c : Config) :
  reachable c ->
  status (st c) = submitting \/ status (st c) = success ->
  last (sent c) lookup_request
    = {| url := WEBHOOK_URL; method := POST; mode := no_cors;
         contentType := Some (lit "application/json");
         body := Some {| name := fullName (st c);
                         userAgent := navigator_userAgent;
                         ip := VStr OFFICE_IP |} |}
  /\ currentIp (st c) = VStr OFFICE_IP
  /\ trim (fullName (st c)) <> [].
Proof.
  intros Hr Hst.
  destruct (reachable_Dispatched _ Hr Hst) as (Hip & Hn & rs & Hs).
  split; [|now split].
  rewrite Hs, last_last. unfold payload_of, webhook_request. now rewrite Hip.
Qed.

(** ** Submitting again *)

(** X10. After a POST that failed at transport level the user can
    resubmit at once: the name and address are as they were, so the second
    submission passes both checks, clears the error message and sends the
    same payload a second time. *)
Theorem resubmit_after_transport_failure (c : Config) :
  status (st c) = ready ->
  trim (fullName (st c)) <> [] ->
  currentIp (st c) = VStr OFFICE_IP ->
  exists c2 c3,
    run c [Submit; PostSettled Rejected] = Some c2
    /\ errorMessage (st c2) = Some msg_submission_failed
    /\ step c2 Submit = Some c3
    /\ status (st c3) = submitting
    /\ errorMessage (st c3) = None
    /\ fullName (st c3) = fullName (st c)
    /\ sent c3 = sent c ++ [webhook_request (payload_of c);
                            webhook_request (payload_of c)].
Proof.
  intros Hst Hn Hip. cbn [run].
  rewrite (step_submit_pass c Hst Hn Hip).
  eexists. eexists. split; [reflexivity|]. split; [reflexivity|].
  rewrite step_submit_pass by (try reflexivity; assumption).
  split; [reflexivity|]. repeat split.
  unfold sent, payload_of, st. simpl. now rewrite <- app_assoc.
Qed.

(** X11. From the success screen a further device can be registered
    without a new lookup: "register another", a new name, a submission and
    a POST that settles lead to [success] again; the only request added is
    one POST to the webhook whose body carries the new name, the browser's
    user-agent string and the address found at start-up, and the GETs of
    the session are as they were. *)
Theorem register_again_without_lookup
    (c : Config) (n : jsstring) (resp : Response) :
  reachable c ->
  status (st c) = success ->
  trim n <> [] ->
  exists c4,
    run c [RegisterAnother; ChangeName n; Submit; PostSettled (Resolved resp)]
      = Some c4
    /\ status (st c4) = success
    /\ fullName (st c4) = n
    /\ currentIp (st c4) = currentIp (st c)
    /\ sent c4 = sent c ++
         [{| url := WEBHOOK_URL; method := POST; mode := no_cors;
             contentType := Some (lit "application/json");
             body := Some {| name := n; userAgent := navigator_userAgent;
                             ip := VStr OFFICE_IP |} |}]
    /\ gets (sent c4) = gets (sent c)
    /\ List.length (posts (sent c4)) = S (List.length (posts (sent c))).
Proof.
  intros Hr Hst Hn.
  destruct (reachable_Dispatched _ Hr (or_intror Hst)) as (Hip & _).
  destruct c as [[[n0 a stt em] rs cs] lf pf]. unfold st, sent in *.
  simpl in *. subst stt a.
  unfold run, step, controls. simpl.
  rewrite handleRegister_pass by (try reflexivity; assumption).
  simpl. eexists. split; [reflexivity|]. simpl.
  split; [reflexivity|]. split; [reflexivity|]. split; [reflexivity|].
  split; [reflexivity|]. split.
  - apply gets_app_post.
  - rewrite posts_app, length_app. simpl. lia.
Qed.

(** X12. "Register another" empties the name, so a submission made right
    after it stops at the name check: the status stays [ready], the
    name-required message is set and nothing is sent. *)
Theorem submit_right_after_reset_is_rejected (c : Config) :
  status (st c) = success ->
  exists c',
    run c [RegisterAnother; Submit] = Some c'
    /\ status (st c') = ready
    /\ fullName (st c') = []
    /\ errorMessage (st c') = Some msg_name_required
    /\ sent c' = sent c
    /\ postInFlight c' = postInFlight c.
Proof.
  destruct c as [[[n a stt em] rs cs] lf pf]. unfold st, sent. simpl.
  intros ->. eexists. split; [reflexivity|]. repeat split.
Qed.

(** ** Progress *)

(** Whenever the render does not throw, the controls it shows are the
    ones [step] goes by. *)
Lemma render_controls (s : State) :
  match render s with
  | SuccessScreen => controls s = SuccessControls
  | Form f => controls s = FormControls (inputDisabled f) (submitDisabled f)
  | Thrown _ => True
  end.
Proof.
  unfold render, controls.
  destruct (AppStatus_eqb (status s) success); [reflexivity|].
  destruct (banner_text s); [reflexivity | exact I].
Qed.

(** Which events the status tests let through, state by state. *)
Lemma step_enabled_by_status (c : Config) :
  reachable c ->
  match status (st c) with
  | loading_ip => forall o, step c (LookupSettled o) <> None
  | submitting => forall o, step c (PostSettled o) <> None
  | success => step c RegisterAnother <> None
  | _ => step c Submit <> None /\ forall v, step c (ChangeName v) <> None
  end.
Proof.
  intros Hr. destruct (reachable_Inv _ Hr) as (Hl & Hp & _ & Hidle).
  destruct c as [[[n a stt em] rs cs] lf pf]. unfold st in *. simpl in *.
  destruct stt; try (now elim Hidle).
  - intros o. simpl. rewrite (proj2 Hl eq_refl). discriminate.
  - split; [|discriminate]. unfold step, controls. simpl.
    destruct (handleRegister _ _). discriminate.
  - intros o. simpl. rewrite (proj2 Hp eq_refl). discriminate.
  - discriminate.
  - split; [|discriminate]. unfold step, controls. simpl.
    destruct (handleRegister _ _). discriminate.
Qed.

Lemma deliver_of_step (c : Config) (e : Event) :
  step c e <> None -> deliver (Mounted c) e <> None.
Proof.
  unfold deliver. destruct (step c e); [discriminate | congruence].
Qed.

Lemma session_run_unmounted (evs : list Event) (s : Session) :
  session_run Unmounted evs = Some s -> evs = [] /\ s = Unmounted.
Proof.
  destruct evs; simpl; [|discriminate]. intros H. now injection H as <-.
Qed.

(** A session that is still mounted went through the steps of its
    events; one that is unmounted went through them too, and the last
    state does not render. *)
Lemma session_run_steps (evs : list Event) (c0 : Config) (s : Session) :
  session_run (Mounted c0) evs = Some s ->
  match s with
  | Mounted c => run c0 evs = Some c
  | Unmounted =>
      exists c err, run c0 evs = Some c /\ render (st c) = Thrown err
  end.
Proof.
  revert c0. induction evs as [|e evs IH]; intros c0 Hrun.
  - simpl in Hrun. now injection Hrun as <-.
  - cbn [session_run deliver] in Hrun. cbn [run].
    destruct (step c0 e) as [c1|]; [|discriminate].
    unfold st in *. destruct (render (state (world c1))) eqn:Er;
      try (apply IH; exact Hrun).
    apply session_run_unmounted in Hrun as [-> ->].
    exists c1, e0. split; [reflexivity | exact Er].
Qed.

(** When the render throws: the form is on screen with the address in
    its banner, the address is truthy, and its conversion to a string
    throws. *)
Lemma render_Thrown (s : State) (err : exn) :
  render s = Thrown err ->
  status s <> success /\ status s <> loading_ip
  /\ ToBoolean (currentIp s) = true
  /\ ToString_value (currentIp s) = Raise err.
Proof.
  unfold render, banner_text.
  destruct (status s); simpl; try discriminate;
    destruct (ToBoolean (currentIp s)); simpl; try discriminate;
    destruct (ToString_value (currentIp s)) eqn:E; try discriminate;
    intros H; injection H as <-; repeat split; discriminate.
Qed.

(** Outside [loading_ip] and [error] the address is the value the lookup
    delivered. *)
Lemma settled_address (evs : list Event) (c : Config) :
  run initial evs = Some c ->
  status (st c) <> loading_ip ->
  status (st c) <> error ->
  exists o, In (LookupSettled o) evs
            /\ lookup_value o = Some (currentIp (st c)).
Proof.
  intros Hrun Hnl Hne.
  destruct (Traced_run evs [] _ _ Traced_initial Hrun) as [HI HT].
  simpl in HT. destruct HI as (Hl & _).
  destruct (lookupInFlight c).
  - elim Hnl. now apply Hl.
  - destruct HT as (o & Hin & _ & Hval). exists o. split; [exact Hin|].
    destruct (lookup_value o); [destruct Hval; congruence | contradiction].
Qed.

(** X14. A session gets stuck only when a render throws.  While the
    component is mounted some event can always be delivered: the
    settlement of the lookup in [loading_ip], the settlement of the POST
    in [submitting], "register another" on the success screen, and
    otherwise (in [ready] and in [error]) an edit of the name or a
    submission.  The component is unmounted, and then accepts no event,
    only after a lookup that delivered a truthy address whose conversion
    to a string throws (an object with a member named [toString], or an
    array holding one), which makes the banner text throw. *)
Theorem session_stuck_only_when_render_throws
    (evs : list Event) (s : Session) :
  session_run (Mounted initial) evs = Some s ->
  match s with
  | Mounted c =>
      match status (st c) with
      | loading_ip => forall o, deliver s (LookupSettled o) <> None
      | submitting => forall o, deliver s (PostSettled o) <> None
      | success => deliver s RegisterAnother <> None
      | _ => deliver s Submit <> None
             /\ forall v, deliver s (ChangeName v) <> None
      end
  | Unmounted =>
      (forall e, deliver s e = None)
      /\ exists o v err,
           In (LookupSettled o) evs
           /\ lookup_value o = Some v
           /\ ToBoolean v = true
           /\ ToString_value v = Raise err
  end.
Proof.
  intros Hrun. apply session_run_steps in Hrun.
  destruct s as [c|].
  - pose proof (step_enabled_by_status c (ex_intro _ evs Hrun)) as H.
    destruct (status (st c));
      try (destruct H as [H1 H2]; split;
           [now apply deliver_of_step
           | intros v; now apply deliver_of_step]);
      try (intros o; now apply deliver_of_step);
      now apply deliver_of_step.
  - split; [reflexivity|].
    destruct Hrun as (c & err & Hrun & Hr).
    apply render_Thrown in Hr as (Hs & Hl & Hb & Ht).
    assert (Hne : status (st c) <> error).
    { intros Herr.
      destruct (reachable_Inv c (ex_intro _ evs Hrun)) as (_ & _ & Hnull & _).
      rewrite (Hnull (or_intror Herr)) in Hb. discriminate Hb. }
    destruct (settled_address evs c Hrun Hl Hne) as (o & Hin & Hv).
    exists o, (currentIp (st c)), err. now repeat split.
Qed.

End App.

(** ** Scenarios

    Concrete sessions: the office address of the specification's
    scenarios, sample endpoints and a sample user-agent string. *)

Definition office : jsstring := lit "203.0.113.5".
Definition webhook : jsstring := lit "https://hooks.example/register".
Definition ip_api : jsstring := lit "https://ip.example/json".
Definition agent : jsstring := lit "Mozilla/5.0".

(** Numbers as the scenarios need them: integers, zero being falsy,
    printed in decimal. *)
Definition number_truthy (n : Z) : bool := negb (Z.eqb n 0).
Definition number_text (n : Z) : jsstring :=
  lit (DecimalString.NilEmpty.string_of_int (Z.to_int n)).

(** The lookup answers [{ip: a}]. *)
Definition lookup_returns (a : jsstring) : Settled :=
  Resolved {| ok := true; parsed := Some (JObj [(lit "ip", JStr a)]) |}.

(** The lookup answers [{}]. *)
Definition lookup_without_field : Settled :=
  Resolved {| ok := true; parsed := Some (JObj []) |}.

(** What a [no-cors] POST resolves to: an opaque response. *)
Definition opaque : Response := {| ok := false; parsed := None |}.

(** The configuration a session is in after the given events. *)
Definition after (evs : list Event) : Config :=
  match run office webhook agent (initial ip_api) evs with
  | Some c => c
  | None => initial ip_api
  end.

Definition jane : jsstring := lit "Jane Doe".
Definition padded_jane : jsstring := lit "  Jane Doe ".
Definition blank : jsstring := [0x20; 0x09; 0xA0]%N.

(** On the office network with the name typed in. *)
Definition jane_at_office : Config :=
  after [LookupSettled (lookup_returns office); ChangeName jane].

(** On another network with the name typed in. *)
Definition jane_elsewhere : Config :=
  after [LookupSettled (lookup_returns (lit "10.0.0.9")); ChangeName jane].

(** After a lookup that was rejected at transport level. *)
Definition lookup_rejected : Config := after [LookupSettled Rejected].

(** C1, counterexample. On the office network with the name "Jane Doe",
    a submission whose POST fails at transport level ends in [ready], not
    in [success]. *)
Lemma submit_with_transport_failure_ends_ready :
  run office webhook agent (initial ip_api)
      [LookupSettled (lookup_returns office); ChangeName jane]
    = Some jane_at_office
  /\ status (st jane_at_office) = ready
  /\ trim (fullName (st jane_at_office)) <> []
  /\ currentIp (st jane_at_office) = VStr office
  /\ exists c1 c2,
       step office webhook agent jane_at_office Submit = Some c1
       /\ status (st c1) = submitting
       /\ step office webhook agent c1 (PostSettled Rejected) = Some c2
       /\ status (st c2) = ready
       /\ status (st c2) <> success.
Proof.
  split; [reflexivity|]. split; [reflexivity|].
  split; [vm_compute; discriminate|]. split; [reflexivity|].
  do 2 eexists. split; [vm_compute; reflexivity|].
  split; [reflexivity|]. split; [vm_compute; reflexivity|].
  split; [reflexivity | discriminate].
Qed.

(** The scenario of the specification: "Jane Doe" on the office network,
    the POST resolving to an opaque response. *)
Lemma submit_dispatches_and_succeeds_witness :
  exists c1 c2,
    step office webhook agent jane_at_office Submit = Some c1
    /\ posts (sent c1) =
         [{| url := webhook; method := POST; mode := no_cors;
             contentType := Some (lit "application/json");
             body := Some {| name := jane; userAgent := agent;
                             ip := VStr office |} |}]
    /\ step office webhook agent c1 (PostSettled (Resolved opaque)) = Some c2
    /\ status (st c2) = success
    /\ sent c2 = sent c1.
Proof.
  destruct (submit_dispatches_and_succeeds office webhook agent
              jane_at_office opaque)
    as (c1 & c2 & c3 & H1 & _ & _ & Hp & H2 & Hs & _ & Hsent & _).
  - reflexivity.
  - vm_compute; discriminate.
  - reflexivity.
  - exists c1, c2. split; [exact H1|]. split; [exact Hp|].
    split; [exact H2|]. split; [exact Hs | exact Hsent].
Defined.

(** A name made of a space, a tab and a no-break space. *)
Lemma submit_blank_name_rejected_witness :
  exists c',
    step office webhook agent
         (after [LookupSettled (lookup_returns office); ChangeName blank]) Submit
      = Some c'
    /\ status (st c') = ready
    /\ errorMessage (st c') = Some msg_name_required
    /\ posts (sent c') = [].
Proof.
  destruct (submit_blank_name_rejected office webhook agent
              (after [LookupSettled (lookup_returns office); ChangeName blank]))
    as (c' & H1 & Hs & He & Hsent & _).
  - reflexivity.
  - reflexivity.
  - exists c'. rewrite Hsent. repeat split; assumption || reflexivity.
Defined.

(** The scenario of the specification: the lookup returns 10.0.0.9. *)
Lemma submit_wrong_network_rejected_witness :
  exists c',
    step office webhook agent jane_elsewhere Submit = Some c'
    /\ status (st c') = ready
    /\ errorMessage (st c') = Some msg_wrong_network
    /\ posts (sent c') = [].
Proof.
  destruct (submit_wrong_network_rejected office webhook agent jane_elsewhere)
    as (c' & H1 & Hs & He & Hsent & _).
  - reflexivity.
  - vm_compute; discriminate.
  - vm_compute; discriminate.
  - exists c'. rewrite Hsent. repeat split; assumption || reflexivity.
Defined.

(** Both settlements of the POST for "Jane Doe" on the office network. *)
Lemma post_settlement_decides_outcome_witness :
  exists c1 c2 c3,
    step office webhook agent jane_at_office Submit = Some c1
    /\ step office webhook agent c1 (PostSettled (Resolved opaque)) = Some c2
    /\ status (st c2) = success
    /\ step office webhook agent c1 (PostSettled Rejected) = Some c3
    /\ status (st c3) = ready
    /\ errorMessage (st c3) = Some msg_submission_failed
    /\ fullName (st c3) = jane.
Proof.
  destruct (post_settlement_decides_outcome office webhook agent jane_at_office)
    as (c1 & H1 & _ & _ & Hok & (c3 & H3 & Hs3 & He3 & Hn3 & _)).
  - reflexivity.
  - vm_compute; discriminate.
  - reflexivity.
  - destruct (Hok opaque) as (c2 & H2 & Hs2 & _).
    exists c1, c2, c3. repeat split; assumption.
Defined.

(** "Register another device" after a complete registration. *)
Lemma register_another_resets_witness :
  exists c',
    step office webhook agent
         (after [LookupSettled (lookup_returns office); ChangeName jane;
                 Submit; PostSettled (Resolved opaque)])
         RegisterAnother = Some c'
    /\ status (st c') = ready
    /\ fullName (st c') = []
    /\ currentIp (st c') = VStr office.
Proof.
  destruct (register_another_resets office webhook agent
              (after [LookupSettled (lookup_returns office); ChangeName jane;
                      Submit; PostSettled (Resolved opaque)]))
    as (c' & H1 & Hs & Hn & Hip & _).
  - reflexivity.
  - exists c'. repeat split; assumption.
Defined.

(** A name typed with two leading spaces and a trailing one is sent
    with them. *)
Lemma payload_name_is_verbatim_witness :
  exists c' r p,
    step office webhook agent
         (after [LookupSettled (lookup_returns office); ChangeName padded_jane])
         Submit = Some c'
    /\ last (sent c') (lookup_request ip_api) = r
    /\ method r = POST
    /\ body r = Some p
    /\ name p = padded_jane
    /\ name p <> jane.
Proof.
  destruct (payload_name_is_verbatim office webhook agent
              (after [LookupSettled (lookup_returns office); ChangeName padded_jane]))
    as (c' & r & p & H1 & Hsent & _ & Hm & Hb & Hn & Hdiff).
  - reflexivity.
  - vm_compute; discriminate.
  - reflexivity.
  - exists c', r, p. split; [exact H1|]. split; [|split; [|split; [|split]]].
    + rewrite Hsent. apply last_last.
    + exact Hm.
    + exact Hb.
    + exact Hn.
    + apply Hdiff. vm_compute; discriminate.
Defined.

(** C5, counterexample. After a lookup that failed the status is [error],
    yet the input and the submit button are not disabled: a submission is
    delivered and its handler runs (it replaces the error message). *)
Lemma submit_is_enabled_after_failed_lookup :
  run office webhook agent (initial ip_api) [LookupSettled Rejected]
    = Some lookup_rejected
  /\ status (st lookup_rejected) = error
  /\ (exists f, render office number_truthy number_text (st lookup_rejected) = Form f
                /\ inputDisabled f = false
                /\ submitDisabled f = false)
  /\ exists c',
       step office webhook agent lookup_rejected Submit = Some c'
       /\ errorMessage (st lookup_rejected) = Some msg_lookup_failed
       /\ errorMessage (st c') = Some msg_name_required.
Proof.
  split; [reflexivity|]. split; [reflexivity|]. split.
  - eexists. split; [vm_compute; reflexivity|]. split; reflexivity.
  - eexists. split; [vm_compute; reflexivity|]. split; reflexivity.
Qed.

(** A rejected lookup, then a name and a submission: still [error]. *)
Lemma failed_lookup_is_terminal_witness :
  status (st (after [LookupSettled Rejected; ChangeName jane; Submit])) = error
  /\ posts (sent (after [LookupSettled Rejected; ChangeName jane; Submit])) = []
  /\ exists c',
       step office webhook agent
            (after [LookupSettled Rejected; ChangeName jane; Submit]) Submit
         = Some c'
       /\ status (st c') = error
       /\ errorMessage (st c') = Some msg_wrong_network.
Proof.
  destruct (failed_lookup_is_terminal office webhook ip_api agent
              number_truthy number_text
              Rejected [ChangeName jane; Submit]
              (after [LookupSettled Rejected; ChangeName jane; Submit]))
    as (Hs & Hp & _ & (c' & H1 & Hs' & _ & _ & Hmsg)).
  - reflexivity.
  - reflexivity.
  - split; [exact Hs|]. split; [exact Hp|]. exists c'.
    split; [exact H1|]. split; [exact Hs'|].
    apply Hmsg. vm_compute; discriminate.
Defined.

(** C6, counterexample. A successful response whose body is [{}], a
    parseable body without the address field, is not treated as a
    failure: the status becomes [ready], no error message is set and the
    stored address is [undefined]. *)
Lemma lookup_without_field_is_not_an_error :
  lookup_without_field = Resolved {| ok := true; parsed := Some (JObj []) |}
  /\ exists c',
       step office webhook agent (initial ip_api)
            (LookupSettled lookup_without_field) = Some c'
       /\ status (st c') = ready
       /\ status (st c') <> error
       /\ errorMessage (st c') = None
       /\ currentIp (st c') = VUndefined.
Proof.
  split; [reflexivity|]. eexists. split; [vm_compute; reflexivity|].
  repeat split. discriminate.
Qed.

(** The lookup returns the office address. *)
Lemma lookup_settlement_outcomes_witness :
  exists c',
    step office webhook agent (initial ip_api)
         (LookupSettled (lookup_returns office)) = Some c'
    /\ status (st c') = ready
    /\ currentIp (st c') = VStr office.
Proof.
  destruct (lookup_settlement_outcomes office webhook agent (initial ip_api)
              (lookup_returns office))
    as (c' & H1 & Hgood & _).
  - reflexivity.
  - exists c'. split; [exact H1|].
    destruct (Hgood {| ok := true; parsed := Some (JObj [(lit "ip", JStr office)]) |}
                    [(lit "ip", JStr office)] office)
      as (Hs & Hip & _); try reflexivity.
    split; assumption.
Defined.

(** C7, counterexample. After a failed lookup the status is [error], not
    [loading_ip], and the detected address is still absent; and after a
    lookup whose body lacks the field the status is [ready] with the
    address [undefined]. *)
Lemma address_absent_outside_loading :
  (run office webhook agent (initial ip_api) [LookupSettled Rejected]
     = Some lookup_rejected
   /\ status (st lookup_rejected) = error
   /\ status (st lookup_rejected) <> loading_ip
   /\ currentIp (st lookup_rejected) = null)
  /\ (run office webhook agent (initial ip_api) [LookupSettled lookup_without_field]
        = Some (after [LookupSettled lookup_without_field])
      /\ status (st (after [LookupSettled lookup_without_field])) = ready
      /\ currentIp (st (after [LookupSettled lookup_without_field])) = VUndefined).
Proof.
  repeat split. vm_compute. discriminate.
Qed.

(** The address during a submission on the office network, and after a
    rejected lookup. *)
Lemma address_absent_in_loading_and_error_witness :
  currentIp (st (after [LookupSettled (lookup_returns office);
                        ChangeName jane; Submit])) = VStr office
  /\ currentIp (st lookup_rejected) = null.
Proof.
  split.
  - destruct (address_absent_in_loading_and_error office webhook ip_api agent
                [LookupSettled (lookup_returns office); ChangeName jane; Submit]
                (after [LookupSettled (lookup_returns office);
                        ChangeName jane; Submit]))
      as (_ & _ & H); [reflexivity|].
    apply (H (lookup_returns office) office); [now left | reflexivity].
  - destruct (address_absent_in_loading_and_error office webhook ip_api agent
                [LookupSettled Rejected] lookup_rejected)
      as (H & _); [reflexivity|].
    apply H. right. reflexivity.
Defined.

(** C8, counterexample. A session does not begin in [idle]: the status is
    [loading_ip] in the first render and after the mount effect, and the
    first transition leaves [loading_ip], not [idle]. *)
Lemma session_begins_in_loading_ip :
  status useState_initial = loading_ip
  /\ status useState_initial <> idle
  /\ status (st (initial ip_api)) = loading_ip
  /\ status (st (initial ip_api)) <> idle
  /\ exists c',
       step office webhook agent (initial ip_api) (LookupSettled Rejected) = Some c'
       /\ status (st c') = error.
Proof.
  repeat split; try discriminate.
  eexists. split; [vm_compute; reflexivity | reflexivity].
Qed.

(** The first step of a session whose lookup is rejected. *)
Lemma status_moves_along_edges_witness :
  status (st (initial ip_api)) <> idle
  /\ edge loading_ip (LookupSettled Rejected) error.
Proof.
  destruct (status_moves_along_edges office webhook ip_api agent
              (initial ip_api) lookup_rejected (LookupSettled Rejected))
    as (_ & _ & Hidle & _ & [[Hsame _] | Hedge]).
  - exists []. reflexivity.
  - reflexivity.
  - discriminate Hsame.
  - split; [exact Hidle | exact Hedge].
Defined.

(** ** Further scenarios *)

(** After one complete registration of "Jane Doe" on the office network. *)
Definition registered : Config :=
  after [LookupSettled (lookup_returns office); ChangeName jane;
         Submit; PostSettled (Resolved opaque)].

Definition john : jsstring := lit "John Roe".

(** The one POST of a complete registration. *)
Lemma every_post_is_compliant_witness :
  Forall (compliant office webhook agent) (posts (sent registered))
  /\ List.length (posts (sent registered)) = 1.
Proof.
  split; [|reflexivity].
  apply (every_post_is_compliant office webhook ip_api agent registered).
  exists [LookupSettled (lookup_returns office); ChangeName jane;
          Submit; PostSettled (Resolved opaque)].
  reflexivity.
Defined.

(** One GET in a session with a complete registration. *)
Lemma one_lookup_then_posts_witness :
  gets (sent registered) = [lookup_request ip_api].
Proof.
  apply (one_lookup_then_posts office webhook ip_api agent registered).
  exists [LookupSettled (lookup_returns office); ChangeName jane;
          Submit; PostSettled (Resolved opaque)].
  reflexivity.
Defined.

(** While the lookup is pending, right after mount. *)
Lemma no_user_event_while_pending_witness :
  step office webhook agent (initial ip_api) Submit = None
  /\ (forall v, step office webhook agent (initial ip_api) (ChangeName v) = None)
  /\ step office webhook agent (initial ip_api) RegisterAnother = None
  /\ lookupInFlight (initial ip_api) && postInFlight (initial ip_api) = false.
Proof.
  apply (no_user_event_while_pending office webhook ip_api agent (initial ip_api)).
  - exists []. reflexivity.
  - left. reflexivity.
Defined.

(** One POST sent and still pending. *)
Lemma posts_sent_match_settlements_witness :
  List.length
    (posts (sent (after [LookupSettled (lookup_returns office);
                         ChangeName jane; Submit])))
  = 0 + 1.
Proof.
  apply (posts_sent_match_settlements office webhook ip_api agent
           [LookupSettled (lookup_returns office); ChangeName jane; Submit]
           (after [LookupSettled (lookup_returns office);
                   ChangeName jane; Submit])).
  reflexivity.
Defined.

(** A second registration after the first. *)
Lemma address_fixed_after_lookup_witness :
  currentIp (st (after [LookupSettled (lookup_returns office); ChangeName jane;
                        Submit; PostSettled (Resolved opaque);
                        RegisterAnother; ChangeName john; Submit]))
    = currentIp (st registered)
  /\ gets (sent (after [LookupSettled (lookup_returns office); ChangeName jane;
                        Submit; PostSettled (Resolved opaque);
                        RegisterAnother; ChangeName john; Submit]))
     = gets (sent registered).
Proof.
  destruct (address_fixed_after_lookup office webhook agent
              [RegisterAnother; ChangeName john; Submit] registered
              (after [LookupSettled (lookup_returns office); ChangeName jane;
                      Submit; PostSettled (Resolved opaque);
                      RegisterAnother; ChangeName john; Submit]))
    as (Ha & _ & Hg).
  - reflexivity.
  - reflexivity.
  - split; assumption.
Defined.

(** On another network, submitting twice. *)
Lemma off_network_never_posts_witness :
  posts (sent (after [LookupSettled (lookup_returns (lit "10.0.0.9"));
                      ChangeName jane; Submit; Submit])) = []
  /\ status (st (after [LookupSettled (lookup_returns (lit "10.0.0.9"));
                        ChangeName jane; Submit; Submit])) = ready.
Proof.
  destruct (off_network_never_posts office webhook ip_api agent
              (lookup_returns (lit "10.0.0.9"))
              [ChangeName jane; Submit; Submit]
              (after [LookupSettled (lookup_returns (lit "10.0.0.9"));
                      ChangeName jane; Submit; Submit]))
    as (Hp & _ & _).
  - vm_compute. discriminate.
  - reflexivity.
  - split; [exact Hp | reflexivity].
Defined.

(** "Jane Doe" on the office network: office-style banner, and the
    submission is dispatched. *)
Lemma banner_agrees_with_check_witness :
  exists f,
    render office number_truthy number_text (st jane_at_office) = Form f
    /\ (onOfficeNetwork f = true <->
        exists c', step office webhook agent jane_at_office Submit = Some c'
                   /\ status (st c') = submitting).
Proof.
  eexists. split; [vm_compute; reflexivity|].
  apply (banner_agrees_with_check office webhook agent
           number_truthy number_text jane_at_office).
  - vm_compute; reflexivity.
  - reflexivity.
  - vm_compute; discriminate.
Defined.

(** After a rejected lookup the form shows the lookup message. *)
Lemma messages_follow_status_witness :
  exists f,
    render office number_truthy number_text (st lookup_rejected) = Form f
    /\ shownError f = Some msg_lookup_failed.
Proof.
  destruct (messages_follow_status office webhook ip_api agent
              number_truthy number_text lookup_rejected)
    as (_ & Herr).
  - exists [LookupSettled Rejected]. reflexivity.
  - destruct (Herr eq_refl) as (f & m & Hf & Hm & Hs).
    exists f. split; [exact Hf|]. rewrite Hs, <- Hm. reflexivity.
Defined.

(** On the success screen after registering "Jane Doe". *)
Lemma success_reflects_last_post_witness :
  last (sent registered) (lookup_request ip_api)
    = {| url := webhook; method := POST; mode := no_cors;
         contentType := Some (lit "application/json");
         body := Some {| name := jane; userAgent := agent;
                         ip := VStr office |} |}.
Proof.
  destruct (success_reflects_last_post office webhook ip_api agent registered)
    as (H & _).
  - exists [LookupSettled (lookup_returns office); ChangeName jane;
            Submit; PostSettled (Resolved opaque)].
    reflexivity.
  - right. reflexivity.
  - exact H.
Defined.

(** "Jane Doe" on the office network, first POST failing. *)
Lemma resubmit_after_transport_failure_witness :
  exists c3,
    run office webhook agent jane_at_office
        [Submit; PostSettled Rejected; Submit] = Some c3
    /\ status (st c3) = submitting
    /\ List.length (posts (sent c3)) = 2.
Proof.
  destruct (resubmit_after_transport_failure office webhook agent jane_at_office)
    as (c2 & c3 & H2 & _ & H3 & Hs & _ & _ & Hsent).
  - reflexivity.
  - vm_compute; discriminate.
  - reflexivity.
  - exists c3. split; [|split].
    + change (run office webhook agent jane_at_office
                  [Submit; PostSettled Rejected; Submit])
        with (match run office webhook agent jane_at_office
                        [Submit; PostSettled Rejected] with
              | Some c => run office webhook agent c [Submit]
              | None => None
              end).
      rewrite H2. cbn [run]. now rewrite H3.
    + exact Hs.
    + rewrite Hsent. reflexivity.
Defined.

(** A second device registered from the success screen. *)
Lemma register_again_without_lookup_witness :
  exists c4,
    run office webhook agent registered
        [RegisterAnother; ChangeName john; Submit; PostSettled (Resolved opaque)]
      = Some c4
    /\ status (st c4) = success
    /\ gets (sent c4) = [lookup_request ip_api]
    /\ List.length (posts (sent c4)) = 2.
Proof.
  destruct (register_again_without_lookup office webhook ip_api agent
              registered john opaque)
    as (c4 & H4 & Hs & _ & _ & _ & Hg & Hl).
  - exists [LookupSettled (lookup_returns office); ChangeName jane;
            Submit; PostSettled (Resolved opaque)].
    reflexivity.
  - reflexivity.
  - vm_compute; discriminate.
  - exists c4. split; [exact H4|]. split; [exact Hs|].
    rewrite Hg, Hl. split; reflexivity.
Defined.

(** Submitting right after "register another". *)
Lemma submit_right_after_reset_is_rejected_witness :
  exists c',
    run office webhook agent registered [RegisterAnother; Submit] = Some c'
    /\ status (st c') = ready
    /\ errorMessage (st c') = Some msg_name_required
    /\ List.length (posts (sent c')) = 1.
Proof.
  destruct (submit_right_after_reset_is_rejected office webhook agent registered)
    as (c' & H1 & Hs & _ & He & Hsent & _).
  - reflexivity.
  - exists c'. split; [exact H1|]. split; [exact Hs|]. split; [exact He|].
    rewrite Hsent. reflexivity.
Defined.

(** A rejected lookup, a rejected submission: one console entry. *)
Lemma console_logs_failed_settlements_witness :
  List.length
    (console (world (after [LookupSettled Rejected; ChangeName jane; Submit])))
  = 0 + 1.
Proof.
  apply (console_logs_failed_settlements office webhook agent
           [LookupSettled Rejected; ChangeName jane; Submit]
           (initial ip_api)
           (after [LookupSettled Rejected; ChangeName jane; Submit])).
  reflexivity.
Defined.

(** The lookup answers [{ip: {toString: null}}]: an address that cannot
    be converted to a string. *)
Definition lookup_unprintable : Settled :=
  Resolved {| ok := true;
              parsed := Some (JObj [(lit "ip", JObj [(lit "toString", JNull)])]) |}.

(** After a rejected lookup the form still accepts edits and submissions;
    after a lookup whose address cannot be printed the component is
    unmounted and accepts nothing. *)
Lemma session_stuck_only_when_render_throws_witness :
  (deliver office webhook agent number_truthy number_text
           (Mounted lookup_rejected) Submit <> None
   /\ forall v, deliver office webhook agent number_truthy number_text
                        (Mounted lookup_rejected) (ChangeName v) <> None)
  /\ session_run office webhook agent number_truthy number_text
                 (Mounted (initial ip_api)) [LookupSettled lookup_unprintable]
     = Some Unmounted
  /\ forall e, deliver office webhook agent number_truthy number_text
                       Unmounted e = None.
Proof.
  split; [|split].
  - apply (session_stuck_only_when_render_throws office webhook ip_api agent
             number_truthy number_text
             [LookupSettled Rejected] (Mounted lookup_rejected)).
    reflexivity.
  - reflexivity.
  - apply (session_stuck_only_when_render_throws office webhook ip_api agent
             number_truthy number_text
             [LookupSettled lookup_unprintable] Unmounted).
    reflexivity.
Defined.
